(** * A shallow embedding of the generation core of the editor:
    src/src/lib/errors.ts (Content Guard, error classes, classifier,
    withTimeout, withRetry, streaming generator, editor machine) and
    src/machines/editorMachine.ts (the machine and generator used by
    EditorCard). *)

From Stdlib Require Import ZArith List Bool String Ascii Lia QArith Qround Lqa.
Import ListNotations.
Open Scope Z_scope.
Set Warnings "-register-all".
Set Warnings "-notation-overridden".


(** ** JavaScript strings

    A JavaScript string is a sequence of UTF-16 code units; [length] is
    the number of code units. *)
Definition jsstring := list Z.

(** Literal conversion from an ASCII string literal. *)
Fixpoint js (s : string) : jsstring :=
  match s with
  | EmptyString => []
  | String a s' => Z.of_nat (nat_of_ascii a) :: js s'
  end.

Definition js_length (s : jsstring) : Z := Z.of_nat (List.length s).

(** WhiteSpace and LineTerminator code units: the set stripped by
    [String.prototype.trim] and matched by the regex class [\s]. *)
Definition is_ws (c : Z) : bool :=
  (9 <=? c) && (c <=? 13) || (c =? 32) || (c =? 160) || (c =? 5760)
  || (8192 <=? c) && (c <=? 8202) || (c =? 8232) || (c =? 8233)
  || (c =? 8239) || (c =? 8287) || (c =? 12288) || (c =? 65279).

Fixpoint drop_ws (s : jsstring) : jsstring :=
  match s with
  | [] => []
  | c :: s' => if is_ws c then drop_ws s' else s
  end.

(** [s.trim()] *)
Definition trim (s : jsstring) : jsstring := rev (drop_ws (rev (drop_ws s))).

(** [s.startsWith(p)] and [s.endsWith(p)] *)
Fixpoint startsWith (s p : jsstring) : bool :=
  match p, s with
  | [], _ => true
  | x :: p', y :: s' => (x =? y) && startsWith s' p'
  | _ :: _, [] => false
  end.

Definition endsWith (s p : jsstring) : bool := startsWith (rev s) (rev p).

(** [s.includes(p)] *)
Fixpoint includes (s p : jsstring) : bool :=
  startsWith s p || match s with [] => false | _ :: s' => includes s' p end.

(** [s.toLowerCase()], as far as a search for an ASCII needle can see:
    ASCII capitals map to small letters, U+212A KELVIN SIGN maps to [k],
    U+0130 maps to [i] followed by U+0307; every other code unit is left
    in place (its lower case, if any, is again outside ASCII). *)
Fixpoint toLowerCase (s : jsstring) : jsstring :=
  match s with
  | [] => []
  | c :: s' =>
      if (65 <=? c) && (c <=? 90) then (c + 32) :: toLowerCase s'
      else if c =? 8490 then 107 :: toLowerCase s'
      else if c =? 304 then 105 :: 775 :: toLowerCase s'
      else c :: toLowerCase s'
  end.

(** ** Content Guard (errors.ts, [validateContent] and [sanitizeContent]) *)

(** The character class [[\x00-\x08\x0B\x0C\x0E-\x1F\x7F]]. *)
Definition problematic (c : Z) : bool :=
  (0 <=? c) && (c <=? 8) || (c =? 11) || (c =? 12)
  || (14 <=? c) && (c <=? 31) || (c =? 127).

Definition msg_too_long : jsstring :=
  js "Content exceeds maximum length of 50,000 characters".
Definition msg_control : jsstring :=
  js "Content contains invalid control characters".

Record validation := { isValid : bool; errors : list jsstring }.

(** The regex is built fresh on each call, so [test] starts at index 0
    and answers whether some code unit of [content] is in the class. *)
Definition validateContent (content : jsstring) : validation :=
  let errs1 := if 50000 <? js_length content then [msg_too_long] else [] in
  let errs2 := if existsb problematic content then errs1 ++ [msg_control]
               else errs1 in
  {| isValid := Nat.eqb (List.length errs2) 0; errors := errs2 |}.

(** [content.replace(/[...]/g, '')] *)
Definition sanitizeContent (content : jsstring) : jsstring :=
  filter (fun c => negb (problematic c)) content.

Definition js_eqb (s t : jsstring) : bool :=
  if list_eq_dec Z.eq_dec s t then true else false.

(** [String(n)] for an integral number. *)
Fixpoint digits_aux (fuel : nat) (n : Z) (acc : jsstring) : jsstring :=
  match fuel with
  | O => acc
  | S f =>
      let acc' := (48 + n mod 10) :: acc in
      if n <? 10 then acc' else digits_aux f (n / 10) acc'
  end.

Definition number_to_string (n : Z) : jsstring :=
  let digits := digits_aux (Z.to_nat (Z.log2 (Z.abs n) + 1)) (Z.abs n) [] in
  if n <? 0 then 45 :: digits else digits.

(** ** Error taxonomy (errors.ts, [ErrorType] and the error classes) *)

Inductive ErrorType :=
| EDITOR_INITIALIZATION | EDITOR_UPDATE | AI_GENERATION | AI_TIMEOUT
| ANIMATION | VALIDATION | NETWORK | UNKNOWN.

Inductive ctx_value := CNum (z : Z) | CBool (b : bool) | CStr (s : jsstring).

(** A JS object literal [Record<string, any>]: keys in insertion order. *)
Definition context := list (jsstring * ctx_value).

Fixpoint obj_set (o : context) (k : jsstring) (v : ctx_value) : context :=
  match o with
  | [] => [(k, v)]
  | (k', v') :: o' => if js_eqb k k' then (k, v) :: o' else (k', v') :: obj_set o' k v
  end.

(** [{ ...o, ...extra }] *)
Definition obj_spread (o extra : context) : context :=
  fold_left (fun acc kv => obj_set acc (fst kv) (snd kv)) extra o.


(** The class an [EditorError] was built by; the base class takes its
    [type] as an argument, every subclass fixes it. *)
Inductive editor_class :=
| EditorErrorC (ty : ErrorType)
| AIGenerationErrorC
| AITimeoutErrorC
| ValidationErrorC
| AnimationErrorC.

(** A thrown [Error] object: a plain [Error] (with its [name] and
    [message]) or an instance of one of the [EditorError] classes. *)
Inductive js_error :=
| PlainError (name message : jsstring)
| EditorErr (cls : editor_class) (message : jsstring)
    (originalError : option js_error) (ctx : option context).

Definition class_type (cls : editor_class) : ErrorType :=
  match cls with
  | EditorErrorC ty => ty
  | AIGenerationErrorC => AI_GENERATION
  | AITimeoutErrorC => AI_TIMEOUT
  | ValidationErrorC => VALIDATION
  | AnimationErrorC => ANIMATION
  end.

(** [error.type], undefined on a plain [Error]. *)
Definition err_type (e : js_error) : option ErrorType :=
  match e with
  | PlainError _ _ => None
  | EditorErr cls _ _ _ => Some (class_type cls)
  end.

Definition err_name (e : js_error) : jsstring :=
  match e with
  | PlainError n _ => n
  | EditorErr (EditorErrorC _) _ _ _ => js "EditorError"
  | EditorErr AIGenerationErrorC _ _ _ => js "AIGenerationError"
  | EditorErr AITimeoutErrorC _ _ _ => js "AITimeoutError"
  | EditorErr ValidationErrorC _ _ _ => js "ValidationError"
  | EditorErr AnimationErrorC _ _ _ => js "AnimationError"
  end.

Definition err_message (e : js_error) : jsstring :=
  match e with
  | PlainError _ m => m
  | EditorErr _ m _ _ => m
  end.

Definition err_context (e : js_error) : option context :=
  match e with
  | PlainError _ _ => None
  | EditorErr _ _ _ c => c
  end.

(** [new AIGenerationError(message, originalError, context)] *)
Definition AIGenerationError (message : jsstring) (orig : option js_error)
  (ctx : option context) : js_error :=
  EditorErr AIGenerationErrorC message orig ctx.

(** [new AITimeoutError(timeoutMs, context)]: the context object is
    [{ timeoutMs, ...context }]. *)
Definition AITimeoutError (timeoutMs : Z) (ctx : context) : js_error :=
  EditorErr AITimeoutErrorC
    (js "AI generation timed out after " ++ number_to_string timeoutMs ++ js "ms")
    None (Some (obj_spread [(js "timeoutMs", CNum timeoutMs)] ctx)).

(** [new ValidationError(message, context)] *)
Definition ValidationError (message : jsstring) (ctx : option context) : js_error :=
  EditorErr ValidationErrorC message None ctx.

(** ** Error classification (errors.ts, [isNetworkError], [getErrorMessage]
    and the [catch] of [mockAIGenerationService]) *)

Definition isNetworkError (error : js_error) : bool :=
  includes (toLowerCase (err_message error)) (js "network")
  || includes (toLowerCase (err_message error)) (js "timeout")
  || includes (toLowerCase (err_message error)) (js "fetch")
  || js_eqb (err_name error) (js "NetworkError").

Definition getErrorMessage (error : js_error) : jsstring := err_message error.

Definition is_instance_Validation_or_AIGeneration (e : js_error) : bool :=
  match e with
  | EditorErr ValidationErrorC _ _ _ | EditorErr AIGenerationErrorC _ _ _ => true
  | _ => false
  end.

(** The [catch (error)] block of the generation promise in
    [mockAIGenerationService]: the error it rejects with. *)
Definition classifyGenerationError (error : js_error) : js_error :=
  if is_instance_Validation_or_AIGeneration error then error
  else if isNetworkError error then
    AIGenerationError (js "Network error: " ++ err_message error) (Some error)
      (Some [(js "isNetworkError", CBool true)])
  else
    AIGenerationError
      (js "Unexpected error during generation: " ++ getErrorMessage error)
      (Some error) None.

(** ** Timeout Guard (errors.ts, [withTimeout])

    Times are in milliseconds after the call.  The operation is
    described by when its promise settles and how, or [Never]; time 0 is
    an operation already settled, whose reaction runs as a microtask,
    before any timer.  [first_on_tie] tells whether, settling exactly
    when the deadline fires, it is handled before the deadline's callback
    (as when it settles in a timer registered before the deadline's).
    [setTimeout] fires no earlier than 1 ms (delays below 1 are set to
    1).  The returned promise is a cell that the first [resolve] or
    [reject] fills; later calls leave it alone. *)

Inductive settlement (A : Type) :=
| Fulfilled (v : A)
| Rejected (e : js_error).
Arguments Fulfilled {A} v.
Arguments Rejected {A} e.

Inductive promise_state (A : Type) :=
| Pending
| Settled (r : settlement A) (at_time : Q).
Arguments Pending {A}.
Arguments Settled {A} r at_time.

Record wt_state (A : Type) := {
  wt_promise : promise_state A;
  wt_timer_armed : bool
}.
Arguments wt_promise {A} w.
Arguments wt_timer_armed {A} w.

Inductive wt_event (A : Type) :=
| DeadlineFires (time : Q)
| OpSettles (time : Q) (r : settlement A).
Arguments DeadlineFires {A} time.
Arguments OpSettles {A} time r.

Definition settle {A} (p : promise_state A) (r : settlement A) (t : Q) :
  promise_state A :=
  match p with
  | Pending => Settled r t
  | Settled _ _ => p
  end.

(** The promise's constructor name, [promise.constructor.name]. *)
Definition promise_ctor_name : jsstring := js "Promise".

Definition wt_handle {A} (timeoutMs : Z) (st : wt_state A) (ev : wt_event A) :
  wt_state A :=
  match ev with
  | DeadlineFires t =>
      (* the setTimeout callback: reject with an AITimeoutError *)
      if wt_timer_armed st then
        {| wt_promise := settle (wt_promise st)
              (Rejected (AITimeoutError timeoutMs
                 [(js "originalPromise", CStr promise_ctor_name)])) t;
           wt_timer_armed := false |}
      else st
  | OpSettles t r =>
      (* .then / .catch: clearTimeout, then resolve or reject *)
      {| wt_promise := settle (wt_promise st) r t; wt_timer_armed := false |}
  end.

Inductive wt_operation (A : Type) :=
| Never
| SettlesAt (time : Q) (first_on_tie : bool) (r : settlement A).
Arguments Never {A}.
Arguments SettlesAt {A} time first_on_tie r.

(** When the callback of [setTimeout(..., timeoutMs)] runs. *)
Definition deadline_time (timeoutMs : Z) : Q := inject_Z (Z.max 1 timeoutMs).

(** Whether the operation's settlement is handled before the deadline. *)
Definition op_first (s : Q) (first_on_tie : bool) (d : Q) : bool :=
  negb (Qle_bool d s) || (first_on_tie && Qeq_bool s d).

Definition wt_schedule {A} (op : wt_operation A) (timeoutMs : Z) :
  list (wt_event A) :=
  let d := deadline_time timeoutMs in
  match op with
  | Never => [DeadlineFires d]
  | SettlesAt s first r =>
      if op_first s first d then [OpSettles s r; DeadlineFires d]
      else [DeadlineFires d; OpSettles s r]
  end.

Definition withTimeout {A} (op : wt_operation A) (timeoutMs : Z) :
  wt_state A :=
  fold_left (wt_handle timeoutMs) (wt_schedule op timeoutMs)
    {| wt_promise := Pending; wt_timer_armed := true |}.

(** ** Retry Policy (errors.ts, [withRetry])

    The operation is described by the outcome of its [k]-th invocation
    ([k] counted from 1); a thrown value is an [Error] or anything
    else, which [new Error(String(error))] turns into an [Error]. *)

Inductive thrown := ThrownError (e : js_error) | ThrownValue (s : jsstring).

Inductive outcome (A : Type) := Returned (v : A) | Threw (t : thrown).
Arguments Returned {A} v.
Arguments Threw {A} t.

Definition as_error (t : thrown) : js_error :=
  match t with
  | ThrownError e => e
  | ThrownValue s => PlainError (js "Error") s
  end.

(** What [withRetry] does, in order: invoke the operation, or sleep. *)
Inductive retry_action := Invoke (attempt : nat) | Sleep (ms : Z).

(** The result of the returned promise: a value, or a thrown value
    ([throw lastError!] with [lastError] unset throws [undefined]). *)
Inductive retry_result (A : Type) :=
| RetryOk (v : A)
| RetryThrows (e : js_error)
| RetryThrowsUndefined.
Arguments RetryOk {A} v.
Arguments RetryThrows {A} e.
Arguments RetryThrowsUndefined {A}.

Definition terminal_error (maxRetries : nat) (delayMs : Z) (lastError : js_error) :
  js_error :=
  EditorErr (EditorErrorC UNKNOWN)
    (js "Operation failed after " ++ number_to_string (Z.of_nat maxRetries)
       ++ js " attempts: " ++ err_message lastError)
    (Some lastError)
    (Some [(js "attempts", CNum (Z.of_nat maxRetries)); (js "delayMs", CNum delayMs)]).

(** The [for] loop from [attempt] on, with [remaining] iterations left. *)
Fixpoint retry_loop {A} (operation : nat -> outcome A) (maxRetries : nat)
  (delayMs : Z) (attempt remaining : nat) (lastError : option js_error) :
  list retry_action * retry_result A :=
  match remaining with
  | O =>
      ([], match lastError with
           | Some e => RetryThrows e
           | None => RetryThrowsUndefined
           end)
  | S r =>
      match operation attempt with
      | Returned v => ([Invoke attempt], RetryOk v)
      | Threw t =>
          let last := as_error t in
          if Nat.eqb attempt maxRetries then
            ([Invoke attempt], RetryThrows (terminal_error maxRetries delayMs last))
          else
            let '(acts, res) :=
              retry_loop operation maxRetries delayMs (S attempt) r (Some last) in
            (Invoke attempt :: Sleep (delayMs * Z.of_nat attempt) :: acts, res)
      end
  end.

Definition withRetry {A} (operation : nat -> outcome A) (maxRetries : nat)
  (delayMs : Z) : list retry_action * retry_result A :=
  retry_loop operation maxRetries delayMs 1 maxRetries None.

(** ** Streaming Generator *)

(** [s.split(/(\s+)/)] ([keep = true]) and [s.split(/\s+/)]
    ([keep = false]).  [\s+] is greedy and never matches the empty
    string, so the splitter scans once: [seg] is the current piece
    (reversed), [run] the whitespace run being matched (reversed).  A
    run ends at the next other code unit or at the end of the string,
    where the piece after it is [""]; with the capturing group the run
    itself is put between the pieces. *)
Fixpoint split_ws (keep : bool) (seg run : jsstring) (s : jsstring) :
  list jsstring :=
  match s with
  | [] =>
      match run with
      | [] => [rev seg]
      | _ :: _ => rev seg :: (if keep then [rev run] else []) ++ [[]]
      end
  | c :: s' =>
      if is_ws c then split_ws keep seg (c :: run) s'
      else match run with
           | [] => split_ws keep (c :: seg) [] s'
           | _ :: _ => rev seg :: (if keep then [rev run] else [])
                        ++ split_ws keep [c] [] s'
           end
  end.

Definition split_ws_capture (s : jsstring) : list jsstring := split_ws true [] [] s.
Definition split_ws_drop (s : jsstring) : list jsstring := split_ws false [] [] s.

(** [.filter(token => token.length > 0)] and [.filter(Boolean)] *)
Definition nonempty_tokens (ts : list jsstring) : list jsstring :=
  filter (fun t => negb (Nat.eqb (List.length t) 0)) ts.

(** [arr.join(sep)] *)
Fixpoint js_join (sep : jsstring) (xs : list jsstring) : jsstring :=
  match xs with
  | [] => []
  | [x] => x
  | x :: xs' => x ++ sep ++ js_join sep xs'
  end.

(** [Math.floor(r * n)] for a draw [r] of [Math.random()] *)
Definition random_index (r : Q) (n : nat) : Z := Qfloor (r * inject_Z (Z.of_nat n)).

(** [r < q] on draws *)
Definition Qltb (r q : Q) : bool := negb (Qle_bool q r).

(** [arr[i]], undefined out of range *)
Definition js_index {T} (xs : list T) (i : Z) : option T :=
  if i <? 0 then None else nth_error xs (Z.to_nat i).

(** What a run of a generator does before its first token: it throws,
    or it selects a text and yields the given tokens in order. *)
Inductive gen_result :=
| GenThrows (e : js_error)
| GenYields (selectedText : jsstring) (tokens : list jsstring).

Definition invalid_content_error (existingContent : jsstring) (v : validation) :
  js_error :=
  ValidationError (js "Invalid content: " ++ js_join (js ", ") (errors v))
    (Some [(js "content", CStr (firstn 100 existingContent ++ js "..."))]).

Definition empty_input_error : js_error :=
  ValidationError (js "Cannot generate content for empty input") None.

Definition type_error_split : js_error :=
  PlainError (js "TypeError") (js "Cannot read properties of undefined (reading 'split')").

Module LibGenerator.
(** [mockAIStreamingService] of errors.ts.  [r1] and [r2] are the two
    draws of [Math.random()] made before the first token (the draws for
    the delays between tokens do not change the tokens). *)

Definition continuationTexts : list jsstring := map js [
  " The morning sun cast long shadows across the empty street, creating patterns that danced with each passing cloud. Sarah pulled her coat tighter as she walked, her footsteps echoing in the quiet neighborhood.";
  " As the clock struck midnight, the old library seemed to come alive with whispers from forgotten books. Each shelf held secrets that had been waiting decades to be discovered by the right reader.";
  " The coffee shop buzzed with the familiar sounds of morning - the hiss of the espresso machine, the gentle murmur of conversations, and the rustle of newspapers being turned by eager readers.";
  " Mountains stretched endlessly before them, their peaks shrouded in mist that seemed to hold ancient mysteries. The hiking trail wound through valleys where wildflowers painted the landscape in vibrant colors.";
  " In the digital age, human connections had become both easier and more complex. A simple message could travel across the world in seconds, yet meaningful conversations seemed harder to find.";
  " The old wooden door creaked as it opened, revealing a room that hadn't been disturbed for years. Dust particles floated in the afternoon light streaming through cracked windows.";
  " She closed her eyes and listened to the ocean waves crashing against the shore. Each wave brought with it memories of summers past and dreams of adventures yet to come.";
  " The city never slept, its neon lights painting the night in electric blues and vibrant pinks. From the rooftop, the world below looked like a circuit board come to life.";
  " Thunder rumbled in the distance as dark clouds gathered overhead. The first drops of rain began to fall, each one carrying the promise of renewal and change.";
  " In the quiet of the forest, every sound seemed amplified - the rustle of leaves, the snap of twigs underfoot, and somewhere in the distance, the call of a lone bird."
]%string.

Definition networkErrors : list jsstring := map js [
  "Network connection timeout"; "Failed to fetch from AI service";
  "Connection refused by server"]%string.

Definition serviceErrors : list jsstring := map js [
  "AI service temporarily unavailable";
  "Content generation failed - please try again";
  "AI model is currently overloaded"; "Rate limit exceeded"]%string.

Definition openingTexts : list jsstring :=
  filter (fun text => includes text (js "morning") || includes text (js "door")
                      || includes text (js "city")) continuationTexts.

Definition mockAIStreamingService (existingContent : jsstring) (r1 r2 : Q) :
  gen_result :=
  let validation := validateContent existingContent in
  if negb (isValid validation) then
    GenThrows (invalid_content_error existingContent validation)
  else
  let sanitizedContent := sanitizeContent existingContent in
  if Nat.eqb (List.length (trim sanitizedContent)) 0 then GenThrows empty_input_error
  else if Qltb r1 (5 # 100) then
    let message := match js_index networkErrors (random_index r2 3) with
                   | Some m => m | None => js "undefined" end in
    GenThrows (PlainError (js "NetworkError") message)
  else if Qltb r1 (8 # 100) then
    let message := match js_index serviceErrors (random_index r2 4) with
                   | Some m => m | None => js "undefined" end in
    GenThrows (AIGenerationError message None
                 (Some [(js "contentLength", CNum (js_length sanitizedContent))]))
  else
  let selectedText :=
    if js_length sanitizedContent <? 50 then
      match js_index openingTexts (random_index r2 (List.length openingTexts)) with
      | Some t => Some t
      | None => js_index continuationTexts 0
      end
    else js_index continuationTexts (random_index r2 (List.length continuationTexts)) in
  match selectedText with
  | None => GenThrows type_error_split
  | Some t => GenYields t (nonempty_tokens (split_ws_capture t))
  end.

End LibGenerator.

Module AppGenerator.
(** [mockAIStreamingService] of src/machines/editorMachine.ts, the
    generator EditorCard runs.  [r] is its draw of [Math.random()]. *)

Definition continuationTexts : list jsstring := map js [
  "The morning sun cast long shadows across the empty street...";
  "As the clock struck midnight, the old library seemed to come alive...";
  "The coffee shop buzzed with the familiar sounds of morning...";
  "Mountains stretched endlessly before them, their peaks shrouded in mist...";
  "In the digital age, human connections had become both easier and more complex...";
  "The old wooden door creaked as it opened, revealing a room untouched for years...";
  "She closed her eyes and listened to the ocean waves crashing against the shore...";
  "The city never slept, its neon lights painting the night in electric blues and pinks...";
  "Thunder rumbled in the distance as dark clouds gathered overhead...";
  "In the quiet of the forest, every sound seemed amplified..."
]%string.

(** [/morning|door|city/i.test(t)]; the candidate texts are ASCII, on
    which the case-insensitive match is a search in the lower case. *)
Definition opening_test (t : jsstring) : bool :=
  let l := toLowerCase t in
  includes l (js "morning") || includes l (js "door") || includes l (js "city").

Definition mockAIStreamingService (existingContent : jsstring) (r : Q) : gen_result :=
  let validation := validateContent existingContent in
  if negb (isValid validation) then
    GenThrows (invalid_content_error existingContent validation)
  else
  let sanitized := sanitizeContent existingContent in
  if Nat.eqb (List.length (trim sanitized)) 0 then GenThrows empty_input_error
  else
  let selectedText :=
    if js_length sanitized <? 50 then
      match find opening_test continuationTexts with
      | Some t => Some t
      | None => js_index continuationTexts 0
      end
    else js_index continuationTexts (random_index r (List.length continuationTexts)) in
  match selectedText with
  | None => GenThrows type_error_split
  | Some t => GenYields t (nonempty_tokens (split_ws_drop t))
  end.

End AppGenerator.

(** ** The editor machine of errors.ts

    XState semantics: an event with no handler in the current state is
    ignored; a transition runs its actions and then the entry actions
    of its target; the assigners of one [assign] all read the context
    from before it.  [lastGenerationTime: Date.now()] sits in an object
    literal, so it is evaluated once, when the machine is created:
    [machineCreatedAt]. *)
Module LibMachine.

Record EditorContext := {
  content : jsstring;
  generatedText : jsstring;
  streamingText : jsstring;
  error : option jsstring;
  lastGenerationTime : option Z;
  generationCount : Z;
  retryCount : Z;
  isRetrying : bool
}.

Definition initialContext : EditorContext := {|
  content := []; generatedText := []; streamingText := []; error := None;
  lastGenerationTime := None; generationCount := 0; retryCount := 0;
  isRetrying := false |}.

(** [EditorEvent], and the events XState raises itself: the outcome of
    the invoked [streamText] actor and the delayed [after] events. *)
Inductive EditorEvent :=
| CONTINUE_WRITING
| STREAM_TOKEN (token : jsstring)
| STREAM_COMPLETE
| GENERATION_ERROR (err : jsstring)
| UPDATE_CONTENT (c : jsstring)
| CLEAR_ERROR
| RETRY
| RESET
| DoneStreamText (output : jsstring)
| ErrorStreamText (message : option jsstring)
| After150
| After10000.

Inductive EditorState := Idle | Loading | Success | ErrorState.

Definition set_content (ctx : EditorContext) (c : jsstring) : EditorContext :=
  {| content := c; generatedText := generatedText ctx; streamingText := streamingText ctx;
     error := error ctx; lastGenerationTime := lastGenerationTime ctx;
     generationCount := generationCount ctx; retryCount := retryCount ctx;
     isRetrying := isRetrying ctx |}.

Definition clear_error (ctx : EditorContext) : EditorContext :=
  {| content := content ctx; generatedText := generatedText ctx;
     streamingText := streamingText ctx; error := None;
     lastGenerationTime := lastGenerationTime ctx;
     generationCount := generationCount ctx; retryCount := retryCount ctx;
     isRetrying := isRetrying ctx |}.

(** The [RESET] assignment; [retryCount] and [isRetrying] are not listed. *)
Definition reset_context (ctx : EditorContext) : EditorContext :=
  {| content := []; generatedText := []; streamingText := []; error := None;
     lastGenerationTime := None; generationCount := 0;
     retryCount := retryCount ctx; isRetrying := isRetrying ctx |}.

(** The [UPDATE_CONTENT] assigner of [idle]. *)
Definition idle_update_content (c : jsstring) : jsstring :=
  let sanitized := sanitizeContent c in
  let validation := validateContent sanitized in
  if negb (isValid validation) then c else sanitized.

(** The [content] assigner of the [success] entry. *)
Definition merge_generated (content generatedText : jsstring) : jsstring :=
  if Nat.eqb (List.length generatedText) 0
     || Nat.eqb (List.length (trim generatedText)) 0 then content
  else
    let trimmedContent := trim content in
    let trimmedGenerated := trim generatedText in
    if Nat.eqb (List.length trimmedContent) 0 then trimmedGenerated
    else
      let needsSpace := negb (endsWith trimmedContent (js "."))
                        && negb (endsWith trimmedContent (js "!"))
                        && negb (endsWith trimmedContent (js "?"))
                        && negb (startsWith trimmedGenerated (js " ")) in
      trimmedContent ++ (if needsSpace then js " " else []) ++ trimmedGenerated.

Definition success_entry (ctx : EditorContext) : EditorContext :=
  {| content := merge_generated (content ctx) (generatedText ctx);
     generatedText := []; streamingText := streamingText ctx; error := None;
     lastGenerationTime := lastGenerationTime ctx;
     generationCount := generationCount ctx + 1;
     retryCount := retryCount ctx; isRetrying := isRetrying ctx |}.

Definition loading_entry (ctx : EditorContext) : EditorContext :=
  {| content := content ctx; generatedText := []; streamingText := [];
     error := error ctx; lastGenerationTime := lastGenerationTime ctx;
     generationCount := generationCount ctx; retryCount := retryCount ctx;
     isRetrying := isRetrying ctx |}.

Definition continue_writing_guard (ctx : EditorContext) : bool :=
  isValid (validateContent (content ctx))
  && negb (Nat.eqb (List.length (trim (content ctx))) 0).

Section Step.
Variable machineCreatedAt : Z.

Definition step (st : EditorState) (ctx : EditorContext) (ev : EditorEvent) :
  EditorState * EditorContext :=
  match st, ev with
  (* idle *)
  | Idle, CONTINUE_WRITING =>
      if continue_writing_guard ctx then
        (Loading, loading_entry
           {| content := content ctx; generatedText := generatedText ctx;
              streamingText := streamingText ctx; error := None;
              lastGenerationTime := Some machineCreatedAt;
              generationCount := generationCount ctx; retryCount := 0;
              isRetrying := false |})
      else (Idle, ctx)
  | Idle, UPDATE_CONTENT c => (Idle, set_content ctx (idle_update_content c))
  | Idle, CLEAR_ERROR => (Idle, clear_error ctx)
  | Idle, RESET => (Idle, reset_context ctx)
  (* loading *)
  | Loading, DoneStreamText output =>
      (Success, success_entry
         {| content := content ctx; generatedText := output; streamingText := [];
            error := None; lastGenerationTime := lastGenerationTime ctx;
            generationCount := generationCount ctx; retryCount := retryCount ctx;
            isRetrying := isRetrying ctx |})
  | Loading, ErrorStreamText m =>
      let errorMessage :=
        match m with
        | Some msg => if Nat.eqb (List.length msg) 0 then js "AI generation failed" else msg
        | None => js "AI generation failed"
        end in
      (ErrorState,
       {| content := content ctx; generatedText := []; streamingText := [];
          error := Some errorMessage; lastGenerationTime := lastGenerationTime ctx;
          generationCount := generationCount ctx; retryCount := retryCount ctx;
          isRetrying := isRetrying ctx |})
  | Loading, UPDATE_CONTENT c => (Loading, set_content ctx c)
  | Loading, CLEAR_ERROR => (Loading, clear_error ctx)
  | Loading, RESET => (Idle, reset_context ctx)
  (* success *)
  | Success, After150 => (Idle, ctx)
  | Success, CONTINUE_WRITING =>
      (Loading, loading_entry
         {| content := content ctx; generatedText := generatedText ctx;
            streamingText := streamingText ctx; error := None;
            lastGenerationTime := Some machineCreatedAt;
            generationCount := generationCount ctx; retryCount := retryCount ctx;
            isRetrying := isRetrying ctx |})
  | Success, UPDATE_CONTENT c => (Success, set_content ctx c)
  | Success, CLEAR_ERROR => (Success, clear_error ctx)
  | Success, RESET => (Idle, reset_context ctx)
  (* error *)
  | ErrorState, CONTINUE_WRITING =>
      (Loading, loading_entry
         {| content := content ctx; generatedText := []; streamingText := streamingText ctx;
            error := None; lastGenerationTime := Some machineCreatedAt;
            generationCount := generationCount ctx; retryCount := retryCount ctx;
            isRetrying := isRetrying ctx |})
  | ErrorState, UPDATE_CONTENT c => (ErrorState, set_content ctx c)
  | ErrorState, CLEAR_ERROR => (Idle, clear_error ctx)
  | ErrorState, RESET => (Idle, reset_context ctx)
  | ErrorState, After10000 => (Idle, clear_error ctx)
  (* no handler: the event is ignored *)
  | _, _ => (st, ctx)
  end.

Fixpoint run (st : EditorState) (ctx : EditorContext) (evs : list EditorEvent) :
  EditorState * EditorContext :=
  match evs with
  | [] => (st, ctx)
  | ev :: evs' => let '(st', ctx') := step st ctx ev in run st' ctx' evs'
  end.

End Step.
End LibMachine.

(** ** The editor machine of src/machines/editorMachine.ts (used by
    EditorCard) *)
Module AppMachine.

Record EditorContext := { content : jsstring; error : option jsstring }.

Definition initialContext : EditorContext := {| content := []; error := None |}.

Inductive EditorEvent :=
| UPDATE_CONTENT (c : jsstring)
| CONTINUE_WRITING
| CANCEL
| CLEAR_ERROR.

Inductive EditorState := Idle | Loading | Streaming | ErrorState.

Definition step (st : EditorState) (ctx : EditorContext) (ev : EditorEvent) :
  EditorState * EditorContext :=
  match st, ev with
  | Idle, UPDATE_CONTENT c => (Idle, {| content := c; error := error ctx |})
  | Idle, CONTINUE_WRITING => (Loading, ctx)
  | Loading, CANCEL => (Idle, ctx)
  | Loading, UPDATE_CONTENT c => (Loading, {| content := c; error := error ctx |})
  | Streaming, CANCEL => (Idle, ctx)
  | ErrorState, CLEAR_ERROR => (Idle, {| content := content ctx; error := None |})
  | _, _ => (st, ctx)
  end.

Fixpoint run (st : EditorState) (ctx : EditorContext) (evs : list EditorEvent) :
  EditorState * EditorContext :=
  match evs with
  | [] => (st, ctx)
  | ev :: evs' => let '(st', ctx') := step st ctx ev in run st' ctx' evs'
  end.

End AppMachine.

(** ** The non-streaming service of errors.ts ([mockAIGenerationService])

    [r0], [r1], [r2] are its draws of [Math.random()]: the delay, the
    failure draw and the pick.  The candidate lists are the same
    literals as in the streaming generator.  A [setTimeout] delay is
    truncated to an integer number of milliseconds.  Times are counted
    from the call; the async function rejects at once (time 0) when the
    input fails validation. *)
Module LibService.

(** The body of the [try] block in the timer callback. *)
Definition generation_body (sanitizedContent : jsstring) (r1 r2 : Q) : outcome jsstring :=
  if Qltb r1 (5 # 100) then
    let message := match js_index LibGenerator.networkErrors (random_index r2 3) with
                   | Some m => m | None => js "undefined" end in
    Threw (ThrownError (PlainError (js "NetworkError") message))
  else if Qltb r1 (8 # 100) then
    let message := match js_index LibGenerator.serviceErrors (random_index r2 4) with
                   | Some m => m | None => js "undefined" end in
    Threw (ThrownError (AIGenerationError message None
             (Some [(js "contentLength", CNum (js_length sanitizedContent))])))
  else if Nat.eqb (List.length (trim sanitizedContent)) 0 then
    Threw (ThrownError empty_input_error)
  else
  let selectedText :=
    if js_length sanitizedContent <? 50 then
      match js_index LibGenerator.openingTexts
              (random_index r2 (List.length LibGenerator.openingTexts)) with
      | Some t => Some t
      | None => js_index LibGenerator.continuationTexts 0
      end
    else js_index LibGenerator.continuationTexts
           (random_index r2 (List.length LibGenerator.continuationTexts)) in
  match selectedText with
  | Some t => if Nat.eqb (List.length (trim t)) 0
              then Threw (ThrownError (AIGenerationError
                                         (js "Generated text is empty or invalid") None None))
              else Returned t
  | None => Threw (ThrownError (AIGenerationError
                                  (js "Generated text is empty or invalid") None None))
  end.

(** [resolve(selectedText)], or [reject] with what the [catch] makes
    of the thrown error (every value thrown there is an [Error]). *)
Definition generation_settlement (sanitizedContent : jsstring) (r1 r2 : Q) :
  settlement jsstring :=
  match generation_body sanitizedContent r1 r2 with
  | Returned t => Fulfilled t
  | Threw t => Rejected (classifyGenerationError (as_error t))
  end.

(** [Math.random() * 2000 + 1000] *)
Definition generation_delay (r0 : Q) : Q := r0 * inject_Z 2000 + inject_Z 1000.

(** The generation's timer is registered before the deadline's, so at
    equal times it fires first; the timers are ordered by their exact
    expiry, as Node orders them.  A browser truncates the delay to whole
    milliseconds, which changes the winner only when [timeoutMs] lies
    strictly between the truncated and the exact delay; the properties
    proved of the service hold in both cases. *)
Definition mockAIGenerationService (existingContent : jsstring) (timeoutMs : Z)
  (r0 r1 r2 : Q) : promise_state jsstring :=
  let validation := validateContent existingContent in
  if negb (isValid validation) then
    Settled (Rejected (invalid_content_error existingContent validation)) 0%Q
  else
  let sanitizedContent := sanitizeContent existingContent in
  wt_promise (withTimeout
                (SettlesAt (generation_delay r0) true
                   (generation_settlement sanitizedContent r1 r2))
                timeoutMs).

End LibService.

(** The [streamText] actor invoked by [loading] in errors.ts: it runs
    the streaming generator on the context's content and fulfils with
    [tokens.join('')]; XState turns its outcome into the done or error
    event of the invocation. *)
Definition streamText (content : jsstring) (r1 r2 : Q) : settlement jsstring :=
  match LibGenerator.mockAIStreamingService content r1 r2 with
  | GenThrows e => Rejected e
  | GenYields _ tokens => Fulfilled (List.concat tokens)
  end.

Definition streamText_event (s : settlement jsstring) : LibMachine.EditorEvent :=
  match s with
  | Fulfilled output => LibMachine.DoneStreamText output
  | Rejected e => LibMachine.ErrorStreamText (Some (err_message e))
  end.

(** ** EditorCard ([handleContinueWriting] of the streaming card)

    Started from a state other than [streaming] (the machine never
    reaches it), the handler sends [CONTINUE_WRITING], then for every
    token appends it to its copy of the content (after a space unless
    that copy ends with one) and sends the result as [UPDATE_CONTENT];
    a thrown error is only logged; [finally] sends [CANCEL]. *)
Fixpoint card_updates (currentContent : jsstring) (tokens : list jsstring) : list jsstring :=
  match tokens with
  | [] => []
  | token :: rest =>
      let next := currentContent ++ (if endsWith currentContent (js " ") then [] else js " ")
                  ++ token in
      next :: card_updates next rest
  end.

Definition handleContinueWriting_events (content : jsstring) (r : Q) :
  list AppMachine.EditorEvent :=
  AppMachine.CONTINUE_WRITING ::
  (match AppGenerator.mockAIStreamingService content r with
   | GenThrows _ => []
   | GenYields _ tokens => map AppMachine.UPDATE_CONTENT (card_updates content tokens)
   end) ++ [AppMachine.CANCEL].

(** ** Editor ([debouncedOnChange], the body of its timer callback)

    [isMounted] is [isMountedRef.current] when the timer fires. *)

Inductive change_result :=
| ChangeSkipped
| ChangeForwarded (sanitized : jsstring)
| ChangeRejected (error : js_error).

Definition debounced_change (isMounted : bool) (newContent : jsstring) : change_result :=
  if negb isMounted then ChangeSkipped else
  let validation := validateContent newContent in
  if negb (isValid validation) then
    ChangeRejected (EditorErr (EditorErrorC VALIDATION)
      (js "Content validation failed: " ++ js_join (js ", ") (errors validation)) None
      (Some [(js "content", CStr (firstn 100 newContent ++ js "..."))]))
  else ChangeForwarded (sanitizeContent newContent).

(** What holds of every state and context the machine of errors.ts
    reaches from its initial context. *)
Definition lib_reachable_inv (machineCreatedAt : Z) (st : LibMachine.EditorState) (ctx : LibMachine.EditorContext) :
  Prop :=
  LibMachine.generatedText ctx = [] /\ LibMachine.streamingText ctx = [] /\
  LibMachine.retryCount ctx = 0 /\ LibMachine.isRetrying ctx = false /\
  0 <= LibMachine.generationCount ctx /\
  (LibMachine.lastGenerationTime ctx = None \/
   LibMachine.lastGenerationTime ctx = Some machineCreatedAt) /\
  match LibMachine.error ctx with
  | None => st <> LibMachine.ErrorState
  | Some m => st = LibMachine.ErrorState /\ m <> []
  end.

(** The number of completed generations among the events. *)
Fixpoint count_done (evs : list LibMachine.EditorEvent) : Z :=
  match evs with
  | [] => 0
  | LibMachine.DoneStreamText _ :: evs' => count_done evs' + 1
  | _ :: evs' => count_done evs'
  end.

(** ** Reference definitions used in the statements *)

(** The schedule of linear backoff: invocations [1..n], with a sleep of
    [d * k] after the [k]-th invocation for every [k < n]. *)
Definition backoff_schedule (n : nat) (d : Z) : list retry_action :=
  List.concat (map (fun k => if Nat.eqb k n then [Invoke k]
                        else [Invoke k; Sleep (d * Z.of_nat k)]) (seq 1 n)).


(** The merge as the amended rule states it: a separating space is put
    unless the trimmed content ends in [.], [!] or [?]. *)
Definition ends_in_terminal (s : jsstring) : bool :=
  match rev s with
  | c :: _ => (c =? 46) || (c =? 33) || (c =? 63)
  | [] => false
  end.

Definition merge_rule (content generatedText : jsstring) : jsstring :=
  match trim generatedText with
  | [] => content
  | tg =>
      match trim content with
      | [] => tg
      | tc => tc ++ (if ends_in_terminal tc then [] else [32]) ++ tg
      end
  end.

(** Events that leave a [loading] run of the app machine where it is. *)
Definition quiet_event (ev : AppMachine.EditorEvent) : Prop :=
  match ev with
  | AppMachine.UPDATE_CONTENT _ | AppMachine.CANCEL => False
  | _ => True
  end.

(** ** Content Guard *)

Lemma filter_idem {T} (f : T -> bool) (l : list T) :
  filter f (filter f l) = filter f l.
Proof.
  induction l as [|x l IH]; simpl; [reflexivity|].
  destruct (f x) eqn:Hf; simpl; [rewrite Hf, IH|]; auto.
Qed.

Lemma sanitize_app (a b : jsstring) :
  sanitizeContent (a ++ b) = sanitizeContent a ++ sanitizeContent b.
Proof. unfold sanitizeContent. apply filter_app. Qed.

Lemma sanitize_clean (x : jsstring) :
  existsb problematic (sanitizeContent x) = false.
Proof.
  unfold sanitizeContent. induction x as [|c x IH]; simpl; [reflexivity|].
  destruct (problematic c) eqn:Hc; simpl; [exact IH|]. now rewrite Hc, IH.
Qed.

Lemma problematic_ranges (c : Z) :
  problematic c = true <->
  (0 <= c <= 8 \/ 11 <= c <= 12 \/ 14 <= c <= 31 \/ c = 127).
Proof.
  unfold problematic. rewrite !orb_true_iff, !andb_true_iff, !Z.leb_le, !Z.eqb_eq.
  lia.
Qed.

(** C9: [sanitizeContent] is idempotent. *)
Theorem sanitize_idempotent (x : jsstring) :
  sanitizeContent (sanitizeContent x) = sanitizeContent x.
Proof. apply filter_idem. Qed.

(** C10: sanitizing removes exactly the code units of the banned ranges
    0x00-0x08, 0x0B-0x0C, 0x0E-0x1F, 0x7F and keeps every other one
    (newline and tab included) in order; so validating a sanitized
    string never reports control characters, and reports the length
    violation exactly when it is longer than 50,000 code units. *)
Theorem sanitize_output_and_validation (x : jsstring) :
  (forall c, problematic c = true <->
             (0 <= c <= 8 \/ 11 <= c <= 12 \/ 14 <= c <= 31 \/ c = 127)) /\
  (forall c, In c (sanitizeContent x) -> problematic c = false) /\
  (forall a b, sanitizeContent (a ++ b) = sanitizeContent a ++ sanitizeContent b) /\
  (forall c, problematic c = false -> sanitizeContent [c] = [c]) /\
  (forall c, problematic c = true -> sanitizeContent [c] = []) /\
  sanitizeContent [9] = [9] /\ sanitizeContent [10] = [10] /\
  ~ In msg_control (errors (validateContent (sanitizeContent x))) /\
  errors (validateContent (sanitizeContent x)) =
    (if 50000 <? js_length (sanitizeContent x) then [msg_too_long] else []).
Proof.
  split; [exact problematic_ranges|].
  split.
  { intros c Hin. unfold sanitizeContent in Hin. apply filter_In in Hin.
    destruct Hin as [_ H]. now apply negb_true_iff in H. }
  split; [exact sanitize_app|].
  split; [intros c Hc; unfold sanitizeContent; simpl; now rewrite Hc|].
  split; [intros c Hc; unfold sanitizeContent; simpl; now rewrite Hc|].
  split; [reflexivity|]. split; [reflexivity|].
  unfold validateContent; simpl; rewrite sanitize_clean.
  split; [|reflexivity].
  destruct (50000 <? js_length (sanitizeContent x)); simpl; [|tauto].
  intros [H|[]]. discriminate H.
Qed.

(** ** The idle [UPDATE_CONTENT] handler *)

(** C1 (counterexample): an update whose content carries a control
    character fails validation, yet the stored content changes (to the
    sanitized text) and no error is recorded. *)
Lemma update_content_control_char_accepted :
  let ctx := LibMachine.set_content LibMachine.initialContext (js "prior") in
  let c := [97; 1] in
  isValid (validateContent c) = false /\
  LibMachine.step 0 LibMachine.Idle ctx (LibMachine.UPDATE_CONTENT c)
    = (LibMachine.Idle, LibMachine.set_content ctx [97]) /\
  [97] <> LibMachine.content ctx /\
  LibMachine.error (LibMachine.set_content ctx [97]) = None.
Proof. vm_compute. repeat split; congruence. Qed.

(** C1 (amended): on [UPDATE_CONTENT c] in idle, whenever the sanitized
    text is at most 50,000 code units long (in particular for any [c] of
    that length, control characters included) the machine stays idle,
    stores [sanitizeContent c] as [content] and changes nothing else, so
    no error is recorded. *)
Theorem idle_update_content_stores_sanitized (t : Z) (ctx : LibMachine.EditorContext)
  (c : jsstring) (Hlen : js_length (sanitizeContent c) <= 50000) :
  LibMachine.step t LibMachine.Idle ctx (LibMachine.UPDATE_CONTENT c)
  = (LibMachine.Idle, LibMachine.set_content ctx (sanitizeContent c)).
Proof.
  simpl. unfold LibMachine.idle_update_content, validateContent.
  rewrite sanitize_clean.
  replace (50000 <? js_length (sanitizeContent c)) with false
    by (symmetry; apply Z.ltb_ge; lia).
  reflexivity.
Qed.

Lemma idle_update_content_stores_sanitized_witness :
  js_length (sanitizeContent [97; 1]) <= 50000 /\
  LibMachine.step 0 LibMachine.Idle LibMachine.initialContext
    (LibMachine.UPDATE_CONTENT [97; 1])
  = (LibMachine.Idle, LibMachine.set_content LibMachine.initialContext
                        (sanitizeContent [97; 1])).
Proof.
  split; [vm_compute; discriminate|].
  apply idle_update_content_stores_sanitized. vm_compute. discriminate.
Defined.

(** ** The merge on entry to [success] *)

Lemma drop_ws_app (xs ys : jsstring) :
  drop_ws (xs ++ ys) =
  if existsb (fun c => negb (is_ws c)) xs then drop_ws xs ++ ys else drop_ws ys.
Proof.
  induction xs as [|x xs IH]; simpl; [reflexivity|].
  destruct (is_ws x); simpl; [exact IH|reflexivity].
Qed.

Lemma drop_ws_head (l : jsstring) :
  drop_ws l = [] \/ exists c l', drop_ws l = c :: l' /\ is_ws c = false.
Proof.
  induction l as [|x l IH]; simpl; [now left|].
  destruct (is_ws x) eqn:Hx; [exact IH|right; eauto].
Qed.

(** The trimmed string starts with a code unit that is not whitespace. *)
Lemma trim_head (g : jsstring) :
  trim g = [] \/ exists c l', trim g = c :: l' /\ is_ws c = false.
Proof.
  unfold trim. destruct (drop_ws_head g) as [->|(c & l' & -> & Hc)]; [now left|].
  right. simpl. rewrite drop_ws_app.
  destruct (existsb (fun c0 => negb (is_ws c0)) (rev l')).
  - rewrite rev_app_distr. simpl. eauto.
  - simpl. rewrite Hc. simpl. eauto.
Qed.

Lemma trim_not_starts_with_space (g : jsstring) :
  startsWith (trim g) [32] = false.
Proof.
  destruct (trim_head g) as [->|(c & l' & -> & Hc)]; [reflexivity|].
  change (startsWith (c :: l') [32]) with ((32 =? c) && startsWith l' []).
  destruct (Z.eqb_spec 32 c) as [<-|Hne]; [discriminate|reflexivity].
Qed.

Lemma endsWith_single (s : jsstring) (p : Z) :
  endsWith s [p] = match rev s with c :: _ => p =? c | [] => false end.
Proof.
  unfold endsWith. change (rev [p]) with [p].
  destruct (rev s) as [|z l]; [reflexivity|].
  change (startsWith (z :: l) [p]) with ((p =? z) && startsWith l []).
  destruct l; apply andb_true_r.
Qed.

Lemma merge_generated_rule (c g : jsstring) :
  LibMachine.merge_generated c g = merge_rule c g.
Proof.
  unfold LibMachine.merge_generated, merge_rule.
  change (js " ") with [32]. rewrite trim_not_starts_with_space, andb_true_r.
  change (js ".") with [46]. change (js "!") with [33]. change (js "?") with [63].
  rewrite !endsWith_single.
  assert (Hg : Nat.eqb (List.length g) 0 = true -> trim g = [])
    by (destruct g; [reflexivity|discriminate]).
  destruct (trim g) as [|x xs] eqn:Htg.
  - rewrite orb_true_r. reflexivity.
  - change (Nat.eqb (List.length (x :: xs)) 0) with false. rewrite orb_false_r.
    destruct (Nat.eqb (List.length g) 0) eqn:Hl; [specialize (Hg eq_refl); congruence|].
    destruct (trim c) as [|y ys] eqn:Htc; [reflexivity|].
    change (Nat.eqb (List.length (y :: ys)) 0) with false. cbv iota beta.
    unfold ends_in_terminal.
    destruct (rev (y :: ys)) as [|z zs]; [reflexivity|].
    rewrite (Z.eqb_sym 46 z), (Z.eqb_sym 33 z), (Z.eqb_sym 63 z).
    destruct (z =? 46), (z =? 33), (z =? 63); reflexivity.
Qed.

(** C2 (counterexample): generated text that starts with whitespace
    (as every candidate text of the generator does) does not suppress
    the separating space: merging " world" into "Hello" gives
    "Hello world", where the stated rule gives "Helloworld". *)
Lemma merge_leading_space_still_separated :
  let ctx := {| LibMachine.content := js "Hello"; LibMachine.generatedText := js " world";
                LibMachine.streamingText := []; LibMachine.error := None;
                LibMachine.lastGenerationTime := None; LibMachine.generationCount := 0;
                LibMachine.retryCount := 0; LibMachine.isRetrying := false |} in
  is_ws (hd 0 (LibMachine.generatedText ctx)) = true /\
  ends_in_terminal (trim (LibMachine.content ctx)) = false /\
  LibMachine.content (LibMachine.success_entry ctx) = js "Hello world" /\
  LibMachine.content (LibMachine.success_entry ctx) <> js "Helloworld".
Proof. vm_compute. repeat split; congruence. Qed.

(** C2 (amended): the [success] entry sets [content] by the merge rule
    (blank [generatedText]: unchanged; empty trimmed content: trimmed
    [generatedText]; otherwise trimmed content, a space unless it ends
    in [.], [!] or [?], trimmed [generatedText]), clears
    [generatedText] and [error] and adds 1 to [generationCount]; merging
    "The sun" into "Hello world" gives "Hello world The sun". *)
Theorem success_entry_merge (ctx : LibMachine.EditorContext) :
  LibMachine.success_entry ctx =
  {| LibMachine.content := merge_rule (LibMachine.content ctx) (LibMachine.generatedText ctx);
     LibMachine.generatedText := [];
     LibMachine.streamingText := LibMachine.streamingText ctx;
     LibMachine.error := None;
     LibMachine.lastGenerationTime := LibMachine.lastGenerationTime ctx;
     LibMachine.generationCount := LibMachine.generationCount ctx + 1;
     LibMachine.retryCount := LibMachine.retryCount ctx;
     LibMachine.isRetrying := LibMachine.isRetrying ctx |} /\
  LibMachine.merge_generated (js "Hello world") (js "The sun") = js "Hello world The sun".
Proof.
  split; [|reflexivity].
  unfold LibMachine.success_entry. now rewrite merge_generated_rule.
Qed.

(** ** Retry Policy *)

Section Retry.
Context {A : Type}.
Variable operation : nat -> outcome A.
Variable failure : nat -> thrown.
Hypothesis always_fails : forall k, operation k = Threw (failure k).

Lemma retry_loop_always_fails (n : nat) (d : Z) (r k : nat) (last : option js_error) :
  (1 <= k)%nat -> (k + r = S n)%nat -> (1 <= r)%nat ->
  retry_loop operation n d k r last =
  (List.concat (map (fun j => if Nat.eqb j n then [Invoke j]
                              else [Invoke j; Sleep (d * Z.of_nat j)]) (seq k r)),
   RetryThrows (terminal_error n d (as_error (failure n)))).
Proof.
  revert k last. induction r as [|r IH]; intros k last Hk Hkr Hr; [lia|].
  simpl. rewrite always_fails.
  destruct (Nat.eqb_spec k n) as [->|Hne].
  - assert (r = 0%nat) as -> by lia. reflexivity.
  - rewrite (IH (S k) (Some (as_error (failure k)))) by lia. reflexivity.
Qed.

End Retry.

Fixpoint err_size (e : js_error) : nat :=
  match e with
  | PlainError _ _ => 1
  | EditorErr _ _ o _ => S (match o with Some e' => err_size e' | None => 0 end)
  end.

Lemma wrapper_differs (cls : editor_class) (m : jsstring) (c : option context)
  (e : js_error) : EditorErr cls m (Some e) c <> e.
Proof.
  intros H. apply (f_equal err_size) in H. simpl in H. lia.
Qed.

(** C3: when every invocation fails, [withRetry op n d] with [n >= 1]
    invokes [op] exactly [n] times, sleeps [d * k] after the [k]-th
    failure for every [k < n], and after the [n]-th failure throws one
    terminal [EditorError] of type UNKNOWN wrapping the last error (not
    that error itself) with context [{attempts: n, delayMs: d}]; nothing
    runs after it. *)
Theorem withRetry_always_failing {A} (operation : nat -> outcome A)
  (failure : nat -> thrown) (n : nat) (d : Z)
  (Hfail : forall k, operation k = Threw (failure k)) (Hn : (1 <= n)%nat) :
  let terminal := terminal_error n d (as_error (failure n)) in
  withRetry operation n d = (backoff_schedule n d, RetryThrows terminal) /\
  List.length (filter (fun a => match a with Invoke _ => true | Sleep _ => false end)
                 (backoff_schedule n d)) = n /\
  terminal <> as_error (failure n) /\
  err_type terminal = Some UNKNOWN /\
  err_context terminal =
    Some [(js "attempts", CNum (Z.of_nat n)); (js "delayMs", CNum d)].
Proof.
  intros terminal. split.
  { unfold withRetry, backoff_schedule.
    apply (retry_loop_always_fails operation failure Hfail); lia. }
  split.
  { unfold backoff_schedule.
    assert (Hgen : forall k r, (k + r = S n)%nat ->
      List.length (filter (fun a => match a with Invoke _ => true | Sleep _ => false end)
        (List.concat (map (fun j => if Nat.eqb j n then [Invoke j]
                                    else [Invoke j; Sleep (d * Z.of_nat j)]) (seq k r))))
      = r).
    { intros k r. revert k. induction r as [|r IH]; intros k Hkr; [reflexivity|].
      simpl. rewrite filter_app, length_app.
      destruct (Nat.eqb k n); simpl; rewrite IH by lia; reflexivity. }
    apply Hgen. lia. }
  split; [apply wrapper_differs|].
  split; reflexivity.
Qed.

Lemma withRetry_always_failing_witness :
  let op := fun _ : nat => Threw (A := unit) (ThrownValue (js "boom")) in
  withRetry op 3 100 = (backoff_schedule 3 100,
    RetryThrows (terminal_error 3 100 (as_error (ThrownValue (js "boom"))))).
Proof.
  intros op.
  apply (withRetry_always_failing op (fun _ => ThrownValue (js "boom")) 3 100);
    [reflexivity|lia].
Defined.

(** ** Error classification *)




(** ** Timeout Guard *)



Lemma op_first_le (s d : Q) (b : bool) : op_first s b d = true -> (s <= d)%Q.
Proof.
  unfold op_first. intros H. apply orb_true_iff in H as [H|H].
  - apply negb_true_iff in H. apply Qlt_le_weak, Qnot_le_lt.
    intros Hle. apply Qle_bool_iff in Hle. congruence.
  - apply andb_true_iff in H as [_ H]. apply Qeq_bool_iff in H. rewrite H. apply Qle_refl.
Qed.




(** ** Cancellation in the app machine *)

Lemma app_loading_quiet (ctx : AppMachine.EditorContext) (evs : list AppMachine.EditorEvent) :
  Forall quiet_event evs ->
  AppMachine.run AppMachine.Loading ctx evs = (AppMachine.Loading, ctx).
Proof.
  induction 1 as [|ev evs Hev _ IH]; [reflexivity|].
  destruct ev; try contradiction; exact IH.
Qed.





(** ** RETRY in the machine of errors.ts *)

(** C8 (counterexample): [RETRY] in the error state leaves the machine
    in [error] with [retryCount] still 0. *)
Lemma retry_in_error_ignored :
  let ctx := {| LibMachine.content := js "Hi"; LibMachine.generatedText := [];
                LibMachine.streamingText := []; LibMachine.error := Some (js "boom");
                LibMachine.lastGenerationTime := None; LibMachine.generationCount := 0;
                LibMachine.retryCount := 0; LibMachine.isRetrying := false |} in
  LibMachine.step 0 LibMachine.ErrorState ctx LibMachine.RETRY = (LibMachine.ErrorState, ctx) /\
  LibMachine.retryCount (snd (LibMachine.step 0 LibMachine.ErrorState ctx LibMachine.RETRY))
    <> LibMachine.retryCount ctx + 1.
Proof. vm_compute. split; [reflexivity|discriminate]. Qed.

(** C8 (amended): no state handles [RETRY]: in every state it leaves
    the state and the context unchanged; [retryCount] is never
    incremented by any event, only kept or reset to 0. *)
Theorem retry_event_ignored (t : Z) (st : LibMachine.EditorState)
  (ctx : LibMachine.EditorContext) :
  LibMachine.step t st ctx LibMachine.RETRY = (st, ctx) /\
  (forall ev, LibMachine.retryCount (snd (LibMachine.step t st ctx ev)) = LibMachine.retryCount ctx
              \/ LibMachine.retryCount (snd (LibMachine.step t st ctx ev)) = 0).
Proof.
  split; [destruct st; reflexivity|].
  intros ev. destruct st, ev; simpl; auto;
    repeat match goal with |- context [if ?b then _ else _] => destruct b end;
    simpl; auto.
Qed.

(** ** Streaming Generator: the emitted tokens *)

Lemma concat_nonempty_tokens (ts : list jsstring) :
  List.concat (nonempty_tokens ts) = List.concat ts.
Proof.
  induction ts as [|t ts IH]; simpl; [reflexivity|].
  destruct t; simpl; now rewrite IH.
Qed.

Lemma split_capture_concat (seg run s : jsstring) :
  List.concat (split_ws true seg run s) = rev seg ++ rev run ++ s.
Proof.
  revert seg run. induction s as [|c s IH]; intros seg run; simpl.
  - destruct run; simpl; rewrite ?app_nil_r; reflexivity.
  - destruct (is_ws c).
    + rewrite IH. simpl. now rewrite <- !app_assoc.
    + destruct run as [|x r].
      * rewrite IH. simpl. now rewrite <- app_assoc.
      * simpl. rewrite IH. simpl. now rewrite <- !app_assoc.
Qed.

Lemma split_drop_concat (seg run s : jsstring) :
  List.concat (split_ws false seg run s) = rev seg ++ filter (fun c => negb (is_ws c)) s.
Proof.
  revert seg run. induction s as [|c s IH]; intros seg run; simpl.
  - destruct run; simpl; rewrite ?app_nil_r; reflexivity.
  - destruct (is_ws c); simpl.
    + apply IH.
    + destruct run as [|x r].
      * rewrite IH. simpl. now rewrite <- app_assoc.
      * simpl. rewrite IH. reflexivity.
Qed.

(** A token is a whitespace run or a piece with no whitespace. *)
Definition token_shape (t : jsstring) : bool :=
  forallb is_ws t || forallb (fun c => negb (is_ws c)) t.

Lemma forallb_rev {T} (f : T -> bool) (l : list T) :
  forallb f (rev l) = forallb f l.
Proof.
  induction l as [|x l IH]; simpl; [reflexivity|].
  rewrite forallb_app, IH. simpl. now rewrite andb_true_r, andb_comm.
Qed.

Lemma split_capture_shape (seg run s : jsstring) :
  forallb (fun c => negb (is_ws c)) seg = true -> forallb is_ws run = true ->
  Forall (fun t => token_shape t = true) (split_ws true seg run s).
Proof.
  unfold token_shape.
  revert seg run. induction s as [|c s IH]; intros seg run Hseg Hrun; simpl.
  - destruct run; repeat constructor; rewrite ?forallb_rev, ?forallb_rev, ?Hseg, ?Hrun;
      auto using orb_true_r.
  - destruct (is_ws c) eqn:Hc.
    + apply IH; simpl; rewrite ?Hc; auto.
    + destruct run as [|x r].
      * apply IH; simpl; rewrite ?Hc; auto.
      * constructor; [rewrite !forallb_rev, Hseg; apply orb_true_r|].
        constructor; [rewrite !forallb_rev, Hrun; reflexivity|].
        apply IH; simpl; rewrite ?Hc; auto.
Qed.

Lemma Forall_nonempty_tokens (P : jsstring -> Prop) (ts : list jsstring) :
  Forall P ts -> Forall P (nonempty_tokens ts).
Proof.
  intros H. unfold nonempty_tokens. apply Forall_forall.
  intros x Hx. apply filter_In in Hx. now apply (proj1 (Forall_forall P ts) H).
Qed.

Lemma lib_generator_tokens (content : jsstring) (r1 r2 : Q) (t : jsstring)
  (toks : list jsstring) :
  LibGenerator.mockAIStreamingService content r1 r2 = GenYields t toks ->
  toks = nonempty_tokens (split_ws_capture t).
Proof.
  unfold LibGenerator.mockAIStreamingService. cbv zeta.
  repeat match goal with
         | |- context [if ?b then _ else _] => destruct b
         | |- context [match ?o with Some _ => _ | None => _ end] => destruct o
         end; intros H; try discriminate H; now injection H as -> <-.
Qed.

Lemma app_generator_tokens (content : jsstring) (r : Q) (t : jsstring)
  (toks : list jsstring) :
  AppGenerator.mockAIStreamingService content r = GenYields t toks ->
  toks = nonempty_tokens (split_ws_drop t).
Proof.
  unfold AppGenerator.mockAIStreamingService. cbv zeta.
  repeat match goal with
         | |- context [if ?b then _ else _] => destruct b
         | |- context [match ?o with Some _ => _ | None => _ end] => destruct o
         end; intros H; try discriminate H; now injection H as -> <-.
Qed.

(** C7 (counterexample): the generator EditorCard runs splits on
    [/\s+/] and drops the whitespace: for a short seed it selects the
    "morning" text, and its tokens concatenated are not that text. *)
Lemma app_tokens_lose_whitespace :
  exists t toks,
    AppGenerator.mockAIStreamingService (js "Hello") 0 = GenYields t toks /\
    List.concat toks <> t.
Proof.
  do 2 eexists. split; [vm_compute; reflexivity|].
  vm_compute. discriminate.
Qed.

(** C7 (amended): the generator of errors.ts emits tokens that are
    whitespace runs or whitespace-free pieces and whose concatenation
    is exactly the selected text; the generator of
    src/machines/editorMachine.ts emits only the whitespace-free pieces,
    whose concatenation is the selected text with its whitespace
    removed. *)
Theorem generator_tokens_rejoin (content : jsstring) (r1 r2 r : Q)
  (t t' : jsstring) (toks toks' : list jsstring)
  (Hlib : LibGenerator.mockAIStreamingService content r1 r2 = GenYields t toks)
  (Happ : AppGenerator.mockAIStreamingService content r = GenYields t' toks') :
  List.concat toks = t /\ Forall (fun tok => token_shape tok = true) toks /\
  List.concat toks' = filter (fun c => negb (is_ws c)) t'.
Proof.
  apply lib_generator_tokens in Hlib. apply app_generator_tokens in Happ. subst.
  split; [rewrite concat_nonempty_tokens; apply split_capture_concat|].
  split; [apply Forall_nonempty_tokens, split_capture_shape; reflexivity|].
  rewrite concat_nonempty_tokens. apply split_drop_concat.
Qed.

Lemma generator_tokens_rejoin_witness :
  LibGenerator.mockAIStreamingService (js "Hello") (1 # 2) 0
    = GenYields (nth 0 LibGenerator.continuationTexts [])
        (nonempty_tokens (split_ws_capture (nth 0 LibGenerator.continuationTexts []))) /\
  List.concat (nonempty_tokens (split_ws_capture (nth 0 LibGenerator.continuationTexts [])))
    = nth 0 LibGenerator.continuationTexts [].
Proof.
  assert (H1 : LibGenerator.mockAIStreamingService (js "Hello") (1 # 2) 0
    = GenYields (nth 0 LibGenerator.continuationTexts [])
        (nonempty_tokens (split_ws_capture (nth 0 LibGenerator.continuationTexts []))))
    by (vm_compute; reflexivity).
  assert (H2 : AppGenerator.mockAIStreamingService (js "Hello") 0
    = GenYields (nth 0 AppGenerator.continuationTexts [])
        (nonempty_tokens (split_ws_drop (nth 0 AppGenerator.continuationTexts []))))
    by (vm_compute; reflexivity).
  split; [exact H1|].
  exact (proj1 (generator_tokens_rejoin _ _ _ _ _ _ _ _ H1 H2)).
Defined.

(** * Further properties of the code *)

(** ** Content Guard *)

(** X1: [validateContent] reports valid exactly for content of at most
    50,000 code units with no banned control character; its errors list
    the length violation first, then the control-character one. *)
Theorem validateContent_spec (s : jsstring) :
  (isValid (validateContent s) = true <->
   js_length s <= 50000 /\ existsb problematic s = false) /\
  errors (validateContent s) =
    (if 50000 <? js_length s then [msg_too_long] else [])
    ++ (if existsb problematic s then [msg_control] else []).
Proof.
  unfold validateContent. cbn [isValid errors].
  destruct (50000 <? js_length s) eqn:Hl, (existsb problematic s) eqn:Hp;
    cbn; rewrite ?app_nil_r; split; try reflexivity.
  all: split; [try discriminate|intros [H1 H2]; try discriminate H2].
  all: try (apply Z.ltb_lt in Hl; lia).
  all: try reflexivity.
  split; [apply Z.ltb_ge in Hl; lia|reflexivity].
Qed.

(** X2: sanitizing leaves a string unchanged exactly when it has no
    banned control character, so every valid string is its own
    sanitization. *)
Theorem sanitize_identity_iff (s : jsstring) :
  (sanitizeContent s = s <-> existsb problematic s = false) /\
  (isValid (validateContent s) = true -> sanitizeContent s = s).
Proof.
  assert (Hiff : sanitizeContent s = s <-> existsb problematic s = false).
  { split.
    - intros H. rewrite <- H. apply sanitize_clean.
    - unfold sanitizeContent. induction s as [|c s IH]; simpl; [reflexivity|].
      intros H. apply orb_false_iff in H as [Hc Hs].
      rewrite Hc. simpl. now rewrite IH. }
  split; [exact Hiff|].
  intros Hv. apply Hiff. apply (proj1 (validateContent_spec s)) in Hv. tauto.
Qed.

(** X3: sanitizing never lengthens a string, so content within the
    length limit always passes validation once sanitized. *)
Theorem sanitize_within_limit_valid (s : jsstring) (Hlen : js_length s <= 50000) :
  js_length (sanitizeContent s) <= js_length s /\
  isValid (validateContent (sanitizeContent s)) = true.
Proof.
  assert (Hle : js_length (sanitizeContent s) <= js_length s).
  { clear Hlen. unfold js_length, sanitizeContent. apply Nat2Z.inj_le.
    induction s as [|c s IH]; simpl; [lia|]. destruct (negb (problematic c)); simpl; lia. }
  split; [exact Hle|].
  apply (proj1 (validateContent_spec _)). split; [lia|apply sanitize_clean].
Qed.

Lemma sanitize_within_limit_valid_witness :
  js_length (sanitizeContent [104; 0; 105]) <= js_length [104; 0; 105] /\
  isValid (validateContent (sanitizeContent [104; 0; 105])) = true.
Proof. apply sanitize_within_limit_valid. vm_compute. discriminate. Defined.

Lemma valid_sanitize_id (c : jsstring) :
  isValid (validateContent c) = true -> sanitizeContent c = c.
Proof.
  unfold validateContent. cbv zeta. simpl.
  destruct (existsb problematic c) eqn:He.
  - destruct (50000 <? js_length c); simpl; discriminate.
  - intros _. unfold sanitizeContent.
    induction c as [|x c IH]; simpl in *; [reflexivity|].
    apply orb_false_iff in He as [Hx Hc]. rewrite Hx. simpl. now rewrite IH.
Qed.

(** X4 (Editor, [debouncedOnChange]): when the timer fires after the
    component is unmounted, nothing happens; otherwise the editor
    forwards the change exactly when the new content is valid, and then
    forwards it unchanged, while an invalid change is reported as a
    VALIDATION-type EditorError and not forwarded. *)
Theorem debounced_change_forwards_valid (isMounted : bool) (newContent : jsstring) :
  (isMounted = false -> debounced_change isMounted newContent = ChangeSkipped) /\
  (isMounted = true -> isValid (validateContent newContent) = true ->
   debounced_change isMounted newContent = ChangeForwarded newContent) /\
  (isMounted = true -> isValid (validateContent newContent) = false ->
   exists e, debounced_change isMounted newContent = ChangeRejected e /\
             err_type e = Some VALIDATION).
Proof.
  unfold debounced_change. split; [intros ->; reflexivity|].
  split; intros -> Hv; rewrite Hv; simpl.
  - f_equal. now apply valid_sanitize_id.
  - eexists. split; reflexivity.
Qed.

Lemma debounced_change_forwards_valid_witness :
  debounced_change true (js "Hello") = ChangeForwarded (js "Hello").
Proof.
  apply (proj1 (proj2 (debounced_change_forwards_valid true (js "Hello")))); reflexivity.
Defined.

(** ** Error classification *)

(** X5: the generation service's classification keeps ValidationErrors
    and AIGenerationErrors as they are, always yields one of these two
    classes, and is idempotent. *)
Theorem classify_closed_idempotent (e : js_error) :
  (is_instance_Validation_or_AIGeneration e = true -> classifyGenerationError e = e) /\
  is_instance_Validation_or_AIGeneration (classifyGenerationError e) = true /\
  classifyGenerationError (classifyGenerationError e) = classifyGenerationError e.
Proof.
  assert (Hpass : forall x, is_instance_Validation_or_AIGeneration x = true ->
                            classifyGenerationError x = x)
    by (intros x Hx; unfold classifyGenerationError; now rewrite Hx).
  assert (Hclass : is_instance_Validation_or_AIGeneration (classifyGenerationError e) = true).
  { unfold classifyGenerationError.
    destruct (is_instance_Validation_or_AIGeneration e) eqn:He; [exact He|].
    destruct (isNetworkError e); reflexivity. }
  split; [apply Hpass|]. split; [exact Hclass|]. now apply Hpass.
Qed.

(** ** Timeout Guard *)

(** X6: [withTimeout] always settles, at the latest when the deadline
    fires ([max(t, 1)] ms), and leaves no timer armed, whether or not the
    operation settles. *)
Theorem withTimeout_settles_by_deadline {A} (op : wt_operation A) (t : Z) :
  exists r s, wt_promise (withTimeout op t) = Settled r s /\ (s <= deadline_time t)%Q /\
              wt_timer_armed (withTimeout op t) = false.
Proof.
  unfold withTimeout, wt_schedule. cbv zeta.
  destruct op as [|s b r]; [do 2 eexists; repeat split; apply Qle_refl|].
  destruct (op_first s b (deadline_time t)) eqn:E; simpl; do 2 eexists;
    repeat split; [now apply (op_first_le s _ b)|apply Qle_refl].
Qed.

(** ** Retry Policy *)

(** X7: if the operation fails on the first [k - 1] invocations and
    succeeds on the [k]-th, with [k <= n], [withRetry op n d] returns its
    value after exactly [k] invocations, having slept [d * j] after the
    [j]-th failure. *)
Theorem withRetry_succeeds_at {A} (operation : nat -> outcome A) (n k : nat) (d : Z)
  (v : A) (Hk1 : (1 <= k)%nat) (Hkn : (k <= n)%nat)
  (Hbefore : forall j, (j < k)%nat -> exists t, operation j = Threw t)
  (Hat : operation k = Returned v) :
  withRetry operation n d =
  (List.concat (map (fun j => [Invoke j; Sleep (d * Z.of_nat j)]) (seq 1 (k - 1)))
     ++ [Invoke k], RetryOk v).
Proof.
  unfold withRetry.
  assert (Hgen : forall j r last, (1 <= j <= k)%nat -> (j + r = S n)%nat ->
    retry_loop operation n d j r last =
    (List.concat (map (fun i => [Invoke i; Sleep (d * Z.of_nat i)]) (seq j (k - j)))
       ++ [Invoke k], RetryOk v)).
  { intros j r. revert j. induction r as [|r IH]; intros j last Hj Hjr; [lia|].
    simpl. destruct (Nat.eq_dec j k) as [->|Hne].
    - rewrite Hat, Nat.sub_diag. reflexivity.
    - destruct (Hbefore j ltac:(lia)) as [t Ht]. rewrite Ht.
      destruct (Nat.eqb_spec j n) as [->|Hjn]; [lia|].
      rewrite IH by lia.
      replace (k - j)%nat with (S (k - S j)) by lia. reflexivity. }
  apply Hgen; lia.
Qed.

Lemma withRetry_succeeds_at_witness :
  withRetry (fun j => if Nat.ltb j 2 then Threw (ThrownValue (js "x")) else Returned 7%Z)
    3 100 = ([Invoke 1; Sleep 100; Invoke 2], RetryOk 7%Z).
Proof.
  apply (withRetry_succeeds_at _ 3 2 100 7%Z); try lia; [|reflexivity].
  intros j Hj. exists (ThrownValue (js "x")). simpl.
  destruct (Nat.ltb_spec j 2); [reflexivity|lia].
Defined.

(** X8: whatever the operation does, [withRetry op n d] invokes it at
    most [n] times; with [n = 0] it never invokes it and throws
    [undefined]. *)
Theorem withRetry_bounded {A} (operation : nat -> outcome A) (n : nat) (d : Z) :
  (List.length (filter (fun a => match a with Invoke _ => true | Sleep _ => false end)
                 (fst (withRetry operation n d))) <= n)%nat /\
  withRetry operation 0 d = ([], RetryThrowsUndefined).
Proof.
  split; [|reflexivity].
  unfold withRetry. generalize 1%nat, (@None js_error).
  induction n as [|r IH] at 2 3; intros j last; simpl; [lia|].
  destruct (operation j) as [v|t]; simpl; [lia|].
  destruct (Nat.eqb j n); simpl; [lia|].
  specialize (IH (S j) (Some (as_error t))).
  destruct (retry_loop operation n d (S j) r (Some (as_error t))) as [acts res].
  simpl in *. lia.
Qed.
(** ** The non-streaming service *)


Lemma js_index_In {T} (xs : list T) (i : Z) (x : T) : js_index xs i = Some x -> In x xs.
Proof.
  unfold js_index. destruct (i <? 0); [discriminate|]. apply nth_error_In.
Qed.

Lemma openingTexts_incl (t : jsstring) :
  In t LibGenerator.openingTexts -> In t LibGenerator.continuationTexts.
Proof. unfold LibGenerator.openingTexts. rewrite filter_In. tauto. Qed.

Lemma generation_body_returns (c : jsstring) (r1 r2 : Q) (t : jsstring) :
  LibService.generation_body c r1 r2 = Returned t ->
  In t LibGenerator.continuationTexts /\ trim t <> [].
Proof.
  intro Hb. unfold LibService.generation_body in Hb. cbv zeta in Hb.
  repeat match type of Hb with
         | context [if ?b then _ else _] => destruct b eqn:?
         | context [match ?o with Some _ => _ | None => _ end] => destruct o eqn:?
         end; try discriminate Hb.
  all: injection Hb as <-.
  all: split; [|intros Hn; rewrite Hn in *; discriminate].
  all: repeat match goal with
         | H : context [match ?o with Some _ => _ | None => _ end] |- _ =>
             destruct o eqn:?
         | H : Some _ = Some _ |- _ => injection H as <-
         | H : js_index _ _ = Some _ |- _ => apply js_index_In in H
         end; auto using openingTexts_incl.
Qed.

Lemma classify_instance (e : js_error) :
  is_instance_Validation_or_AIGeneration (classifyGenerationError e) = true.
Proof.
  unfold classifyGenerationError.
  destruct (is_instance_Validation_or_AIGeneration e) eqn:He; [exact He|].
  destruct (isNetworkError e); reflexivity.
Qed.

Lemma generation_settlement_cases (c : jsstring) (r1 r2 : Q) :
  match LibService.generation_settlement c r1 r2 with
  | Fulfilled t => In t LibGenerator.continuationTexts /\ trim t <> []
  | Rejected e => is_instance_Validation_or_AIGeneration e = true
  end.
Proof.
  unfold LibService.generation_settlement.
  destruct (LibService.generation_body c r1 r2) as [t|th] eqn:Hb.
  - exact (generation_body_returns c r1 r2 t Hb).
  - apply classify_instance.
Qed.

Lemma withTimeout_some_cases {A} (s : Q) (b : bool) (t : Z) (r : settlement A) :
  wt_promise (withTimeout (SettlesAt s b r) t) =
  if op_first s b (deadline_time t) then Settled r s
  else Settled (Rejected (AITimeoutError t [(js "originalPromise", CStr promise_ctor_name)]))
         (deadline_time t).
Proof.
  unfold withTimeout, wt_schedule. cbv zeta.
  destruct (op_first s b (deadline_time t)); reflexivity.
Qed.



(** X10: the service never fails with a raw error: every rejection is a
    ValidationError, an AIGenerationError or an AITimeoutError, and every
    fulfilment is one of the candidate texts, non-blank after trimming. *)
Theorem generation_service_outcomes (content : jsstring) (timeoutMs : Z) (r0 r1 r2 : Q) :
  match LibService.mockAIGenerationService content timeoutMs r0 r1 r2 with
  | Settled (Fulfilled t) _ => In t LibGenerator.continuationTexts /\ trim t <> []
  | Settled (Rejected (EditorErr cls _ _ _)) _ =>
      cls = ValidationErrorC \/ cls = AIGenerationErrorC \/ cls = AITimeoutErrorC
  | _ => False
  end.
Proof.
  unfold LibService.mockAIGenerationService.
  destruct (negb (isValid (validateContent content))); [now left|].
  rewrite withTimeout_some_cases.
  destruct (op_first (LibService.generation_delay r0) true (deadline_time timeoutMs));
    [|right; right; reflexivity].
  pose proof (generation_settlement_cases (sanitizeContent content) r1 r2) as H.
  destruct (LibService.generation_settlement (sanitizeContent content) r1 r2) as [t|e];
    [exact H|].
  destruct e as [|[] m o c]; try discriminate H; auto.
Qed.

(** ** The streaming generators *)

Lemma random_index_range (r : Q) (n : nat) :
  (0 <= r)%Q -> (r < 1)%Q -> (0 < n)%nat -> 0 <= random_index r n < Z.of_nat n.
Proof.
  intros H0 H1 Hn. unfold random_index.
  assert (Hz : (0 < inject_Z (Z.of_nat n))%Q) by (unfold Qlt; simpl; lia).
  split.
  - pose proof (Qfloor_resp_le (inject_Z 0) (r * inject_Z (Z.of_nat n))) as H.
    rewrite Qfloor_Z in H. apply H. unfold inject_Z at 1.
    apply Qmult_le_0_compat; [exact H0|apply Qlt_le_weak, Hz].
  - rewrite Zlt_Qlt. eapply Qle_lt_trans; [apply Qfloor_le|].
    rewrite <- (Qmult_1_l (inject_Z (Z.of_nat n))) at 2.
    apply Qmult_lt_r; assumption.
Qed.

Lemma js_index_random_some {T} (xs : list T) (r : Q) :
  (0 <= r)%Q -> (r < 1)%Q -> xs <> [] ->
  exists x, js_index xs (random_index r (List.length xs)) = Some x.
Proof.
  intros H0 H1 Hne.
  assert (Hl : (0 < List.length xs)%nat) by (destruct xs; [congruence|simpl; lia]).
  pose proof (random_index_range r (List.length xs) H0 H1 Hl) as [Hlo Hhi].
  unfold js_index. replace (random_index r (List.length xs) <? 0) with false
    by (symmetry; apply Z.ltb_ge; lia).
  destruct (nth_error xs (Z.to_nat (random_index r (List.length xs)))) eqn:E; [eauto|].
  apply nth_error_None in E. lia.
Qed.

Lemma Qltb_false (r q : Q) : Qltb r q = false <-> (q <= r)%Q.
Proof.
  unfold Qltb. rewrite <- Qle_bool_iff. destruct (Qle_bool q r); simpl; intuition congruence.
Qed.

Lemma nonblank_length (s : jsstring) :
  Nat.eqb (List.length s) 0 = false <-> s <> [].
Proof. destruct s; simpl; intuition congruence. Qed.

(** X11: with draws in [0, 1), the generator of errors.ts starts
    yielding exactly when the content is valid, not blank once
    sanitized, and the failure draw is at least 0.08. *)
Theorem lib_generator_yields_iff (content : jsstring) (r1 r2 : Q)
  (H0 : (0 <= r2)%Q) (H1 : (r2 < 1)%Q) :
  (exists t toks, LibGenerator.mockAIStreamingService content r1 r2 = GenYields t toks) <->
  isValid (validateContent content) = true /\ trim (sanitizeContent content) <> [] /\
  (8 # 100 <= r1)%Q.
Proof.
  unfold LibGenerator.mockAIStreamingService. cbv zeta.
  destruct (isValid (validateContent content)) eqn:Hv; simpl negb;
    [|split; [intros (t & toks & H); discriminate H|intros [H _]; discriminate H]].
  destruct (Nat.eqb (List.length (trim (sanitizeContent content))) 0) eqn:Hb.
  { split; [intros (t & toks & H); discriminate H|].
    intros (_ & Hn & _). apply nonblank_length in Hn. congruence. }
  apply nonblank_length in Hb.
  destruct (Qltb r1 (5 # 100)) eqn:H5.
  { split; [intros (t & toks & H); discriminate H|].
    intros (_ & _ & Hr). unfold Qltb in H5. apply negb_true_iff in H5.
    assert (Hle : (5 # 100 <= r1)%Q) by (eapply Qle_trans; [|exact Hr]; discriminate).
    apply Qle_bool_iff in Hle. congruence. }
  destruct (Qltb r1 (8 # 100)) eqn:H8.
  { split; [intros (t & toks & H); discriminate H|].
    intros (_ & _ & Hr). apply Qltb_false in Hr. congruence. }
  apply Qltb_false in H8.
  split; [intros _; auto|intros _].
  destruct (js_length (sanitizeContent content) <? 50).
  - destruct (js_index LibGenerator.openingTexts
                (random_index r2 (List.length LibGenerator.openingTexts))); eauto.
    vm_compute. eauto.
  - destruct (js_index_random_some LibGenerator.continuationTexts r2 H0 H1)
      as [x Hx]; [discriminate|]. rewrite Hx. eauto.
Qed.

Lemma lib_generator_yields_iff_witness :
  (exists t toks, LibGenerator.mockAIStreamingService (js "It was late.") (1 # 2) 0 =
                  GenYields t toks) <->
  isValid (validateContent (js "It was late.")) = true /\
  trim (sanitizeContent (js "It was late.")) <> [] /\ (8 # 100 <= 1 # 2)%Q.
Proof.
  apply (lib_generator_yields_iff (js "It was late.") (1 # 2) 0);
    [discriminate|reflexivity].
Defined.

(** X12: what the generator of errors.ts yields is one of its candidate
    texts, and for content under 50 characters one of the opening texts
    (those mentioning morning, door or city), whatever the draws. *)
Theorem lib_generator_selection (content : jsstring) (r1 r2 : Q) (t : jsstring)
  (toks : list jsstring)
  (Hy : LibGenerator.mockAIStreamingService content r1 r2 = GenYields t toks) :
  In t LibGenerator.continuationTexts /\
  (js_length (sanitizeContent content) < 50 -> In t LibGenerator.openingTexts).
Proof.
  revert Hy. unfold LibGenerator.mockAIStreamingService. cbv zeta.
  destruct (negb (isValid (validateContent content))); [discriminate|].
  destruct (Nat.eqb (List.length (trim (sanitizeContent content))) 0); [discriminate|].
  destruct (Qltb r1 (5 # 100)); [discriminate|].
  destruct (Qltb r1 (8 # 100)); [discriminate|].
  destruct (js_length (sanitizeContent content) <? 50) eqn:Hs.
  - destruct (js_index LibGenerator.openingTexts
                (random_index r2 (List.length LibGenerator.openingTexts))) eqn:Ho.
    + intros Hy. injection Hy as <- _. apply js_index_In in Ho.
      split; [now apply openingTexts_incl|intros _; exact Ho].
    + vm_compute. intros Hy. injection Hy as <- _.
      split; [left; reflexivity|intros _; left; reflexivity].
  - destruct (js_index LibGenerator.continuationTexts
                (random_index r2 (List.length LibGenerator.continuationTexts))) eqn:Ho;
      [|discriminate].
    intros Hy. injection Hy as <- _. apply js_index_In in Ho.
    split; [exact Ho|intros Hl; apply Z.ltb_ge in Hs; lia].
Qed.

Lemma lib_generator_selection_witness :
  In (js " The city never slept, its neon lights painting the night in electric blues and vibrant pinks. From the rooftop, the world below looked like a circuit board come to life.")
    LibGenerator.continuationTexts /\
  (js_length (sanitizeContent (js "It was late.")) < 50 ->
   In (js " The city never slept, its neon lights painting the night in electric blues and vibrant pinks. From the rooftop, the world below looked like a circuit board come to life.")
     LibGenerator.openingTexts).
Proof.
  apply (lib_generator_selection (js "It was late.") (1 # 2) (9 # 10) _
           (nonempty_tokens (split_ws_capture (js " The city never slept, its neon lights painting the night in electric blues and vibrant pinks. From the rooftop, the world below looked like a circuit board come to life.")))).
  vm_compute. reflexivity.
Defined.

(** X13: with a draw in [0, 1), the generator of
    src/machines/editorMachine.ts starts yielding exactly when the
    content is valid and not blank once sanitized: it has no simulated
    failures. *)
Theorem app_generator_yields_iff (content : jsstring) (r : Q)
  (H0 : (0 <= r)%Q) (H1 : (r < 1)%Q) :
  (exists t toks, AppGenerator.mockAIStreamingService content r = GenYields t toks) <->
  isValid (validateContent content) = true /\ trim (sanitizeContent content) <> [].
Proof.
  unfold AppGenerator.mockAIStreamingService. cbv zeta.
  destruct (isValid (validateContent content)) eqn:Hv; simpl negb;
    [|split; [intros (t & toks & H); discriminate H|intros [H _]; discriminate H]].
  destruct (Nat.eqb (List.length (trim (sanitizeContent content))) 0) eqn:Hb.
  { split; [intros (t & toks & H); discriminate H|].
    intros (_ & Hn). apply nonblank_length in Hn. congruence. }
  apply nonblank_length in Hb.
  split; [intros _; auto|intros _].
  destruct (js_length (sanitizeContent content) <? 50).
  - vm_compute. eauto.
  - destruct (js_index_random_some AppGenerator.continuationTexts r H0 H1)
      as [x Hx]; [discriminate|]. rewrite Hx. eauto.
Qed.

Lemma app_generator_yields_iff_witness :
  (exists t toks, AppGenerator.mockAIStreamingService (js "It was late.") (1 # 3) =
                  GenYields t toks) <->
  isValid (validateContent (js "It was late.")) = true /\
  trim (sanitizeContent (js "It was late.")) <> [].
Proof.
  apply (app_generator_yields_iff (js "It was late.") (1 # 3)); [discriminate|reflexivity].
Defined.

(** X14: what the generator of src/machines/editorMachine.ts yields is
    one of its candidate texts, and for content under 50 characters
    always the first one (the first text the opening test accepts),
    whatever the draw. *)
Theorem app_generator_selection (content : jsstring) (r : Q) (t : jsstring)
  (toks : list jsstring)
  (Hy : AppGenerator.mockAIStreamingService content r = GenYields t toks) :
  In t AppGenerator.continuationTexts /\
  (js_length (sanitizeContent content) < 50 ->
   t = js "The morning sun cast long shadows across the empty street...").
Proof.
  revert Hy. unfold AppGenerator.mockAIStreamingService. cbv zeta.
  destruct (negb (isValid (validateContent content))); [discriminate|].
  destruct (Nat.eqb (List.length (trim (sanitizeContent content))) 0); [discriminate|].
  destruct (js_length (sanitizeContent content) <? 50) eqn:Hs.
  - vm_compute. intros Hy. injection Hy as <- _.
    split; [left; reflexivity|intros _; reflexivity].
  - destruct (js_index AppGenerator.continuationTexts
                (random_index r (List.length AppGenerator.continuationTexts))) eqn:Ho;
      [|discriminate].
    intros Hy. injection Hy as <- _. apply js_index_In in Ho.
    split; [exact Ho|intros Hl; apply Z.ltb_ge in Hs; lia].
Qed.

Lemma app_generator_selection_witness :
  In (js "The morning sun cast long shadows across the empty street...")
    AppGenerator.continuationTexts /\
  (js_length (sanitizeContent (js "It was late.")) < 50 ->
   js "The morning sun cast long shadows across the empty street..." =
   js "The morning sun cast long shadows across the empty street...").
Proof.
  apply (app_generator_selection (js "It was late.") (9 # 10) _
           (nonempty_tokens (split_ws_drop (js "The morning sun cast long shadows across the empty street...")))).
  vm_compute. reflexivity.
Defined.

(** ** The editor machine of errors.ts *)

Section LibMachineRuns.
Variable machineCreatedAt : Z.

Lemma lib_step_inv (st : LibMachine.EditorState) (ctx : LibMachine.EditorContext)
  (ev : LibMachine.EditorEvent) :
  lib_reachable_inv machineCreatedAt st ctx ->
  let '(st', ctx') := LibMachine.step machineCreatedAt st ctx ev in
  lib_reachable_inv machineCreatedAt st' ctx'.
Proof.
  intros (Hg & Hs & Hr & Hi & Hc & Ht & He).
  destruct ctx as [c g s e t gc rc ir]; simpl in *; subst.
  unfold lib_reachable_inv.
  destruct st, ev; simpl;
    try (destruct (LibMachine.continue_writing_guard _));
    simpl; repeat split; auto; try lia;
    try (destruct e; simpl in *; intuition (try discriminate));
    try (destruct message as [msg|]; [destruct (Nat.eqb (List.length msg) 0) eqn:Hm|]);
    try discriminate.
  all: subst; discriminate.
Qed.

Lemma lib_run_inv (st : LibMachine.EditorState) (ctx : LibMachine.EditorContext)
  (evs : list LibMachine.EditorEvent) :
  lib_reachable_inv machineCreatedAt st ctx ->
  let '(st', ctx') := LibMachine.run machineCreatedAt st ctx evs in
  lib_reachable_inv machineCreatedAt st' ctx'.
Proof.
  revert st ctx. induction evs as [|ev evs IH]; intros st ctx H; simpl; [exact H|].
  pose proof (lib_step_inv st ctx ev H) as Hs.
  destruct (LibMachine.step machineCreatedAt st ctx ev) as [st' ctx'].
  now apply IH.
Qed.

Lemma guard_generator_input (ctx : LibMachine.EditorContext) :
  LibMachine.continue_writing_guard ctx = true ->
  isValid (validateContent (LibMachine.content ctx)) = true /\
  sanitizeContent (LibMachine.content ctx) = LibMachine.content ctx /\
  Nat.eqb (List.length (trim (LibMachine.content ctx))) 0 = false.
Proof.
  unfold LibMachine.continue_writing_guard. intros H.
  apply andb_true_iff in H as [Hv Hb]. apply negb_true_iff in Hb.
  auto using valid_sanitize_id.
Qed.

Lemma lib_error_messages_nonempty :
  Forall (fun m => m <> []) LibGenerator.networkErrors /\
  Forall (fun m => m <> []) LibGenerator.serviceErrors.
Proof. split; repeat constructor; discriminate. Qed.

Lemma picked_message_nonempty (xs : list jsstring) (i : Z) :
  Forall (fun m => m <> []) xs ->
  (match js_index xs i with Some m => m | None => js "undefined" end) <> [].
Proof.
  intros Hx. destruct (js_index xs i) eqn:E; [|discriminate].
  apply js_index_In in E. exact (proj1 (Forall_forall _ xs) Hx j E).
Qed.

Lemma error_message_stored (msg : jsstring) :
  msg <> [] ->
  (if Nat.eqb (List.length msg) 0 then js "AI generation failed" else msg) = msg.
Proof. destruct msg; [congruence|reflexivity]. Qed.

(** X15: along any run of the machine of errors.ts from its initial
    context, [generatedText] and [streamingText] are empty whenever the
    machine is at rest in a state, [retryCount] stays 0 and [isRetrying]
    false, [generationCount] is never negative, [lastGenerationTime] is
    unset or the machine's creation time, and an error message is stored
    exactly in the [error] state, and is never empty. *)
Theorem lib_machine_reachable (evs : list LibMachine.EditorEvent) :
  let '(st, ctx) :=
    LibMachine.run machineCreatedAt LibMachine.Idle LibMachine.initialContext evs in
  LibMachine.generatedText ctx = [] /\ LibMachine.streamingText ctx = [] /\
  LibMachine.retryCount ctx = 0 /\ LibMachine.isRetrying ctx = false /\
  0 <= LibMachine.generationCount ctx /\
  (LibMachine.lastGenerationTime ctx = None \/
   LibMachine.lastGenerationTime ctx = Some machineCreatedAt) /\
  match LibMachine.error ctx with
  | None => st <> LibMachine.ErrorState
  | Some m => st = LibMachine.ErrorState /\ m <> []
  end.
Proof.
  pose proof (lib_run_inv LibMachine.Idle LibMachine.initialContext evs) as H.
  destruct (LibMachine.run machineCreatedAt LibMachine.Idle LibMachine.initialContext evs).
  apply H. unfold lib_reachable_inv. simpl. repeat split; auto; try lia. discriminate.
Qed.

(** X16: one step of the machine of errors.ts resets [generationCount]
    to 0 on [RESET], adds 1 to it when a generation completes in
    [loading], and leaves it unchanged otherwise. *)
Theorem lib_generation_count_step (st : LibMachine.EditorState)
  (ctx : LibMachine.EditorContext) (ev : LibMachine.EditorEvent) :
  LibMachine.generationCount (snd (LibMachine.step machineCreatedAt st ctx ev)) =
  match st, ev with
  | _, LibMachine.RESET => 0
  | LibMachine.Loading, LibMachine.DoneStreamText _ => LibMachine.generationCount ctx + 1
  | _, _ => LibMachine.generationCount ctx
  end.
Proof.
  destruct st, ev; simpl;
    try (destruct (LibMachine.continue_writing_guard ctx)); reflexivity.
Qed.

Lemma count_done_nonneg (evs : list LibMachine.EditorEvent) : 0 <= count_done evs.
Proof. induction evs as [|[] evs IH]; simpl; lia. Qed.

Lemma step_count_bounds (st : LibMachine.EditorState) (ctx : LibMachine.EditorContext)
  (ev : LibMachine.EditorEvent) :
  ev <> LibMachine.RESET ->
  LibMachine.generationCount ctx <=
  LibMachine.generationCount (snd (LibMachine.step machineCreatedAt st ctx ev)) <=
  LibMachine.generationCount ctx + count_done [ev].
Proof.
  intros Hr. destruct st, ev; simpl;
    try (destruct (LibMachine.continue_writing_guard ctx)); simpl; try congruence; lia.
Qed.

(** X17: over a run without [RESET], the machine of errors.ts never
    lowers [generationCount] and raises it at most once per completed
    generation. *)
Theorem lib_generation_count_run (st : LibMachine.EditorState)
  (ctx : LibMachine.EditorContext) (evs : list LibMachine.EditorEvent)
  (Hno : Forall (fun ev => ev <> LibMachine.RESET) evs) :
  LibMachine.generationCount ctx <=
  LibMachine.generationCount (snd (LibMachine.run machineCreatedAt st ctx evs)) <=
  LibMachine.generationCount ctx + count_done evs.
Proof.
  revert st ctx. induction Hno as [|ev evs Hev Hno IH]; intros st ctx; [simpl; lia|].
  assert (Hd : count_done (ev :: evs) = count_done [ev] + count_done evs)
    by (destruct ev; cbn [count_done]; lia).
  rewrite Hd. cbn [LibMachine.run].
  pose proof (step_count_bounds st ctx ev Hev) as Hs.
  destruct (LibMachine.step machineCreatedAt st ctx ev) as [st' ctx'] eqn:E.
  cbn [snd] in Hs. specialize (IH st' ctx'). lia.
Qed.

(** X18: with the draws of [Math.random()] in [0, 1), a generation
    started from [idle] on content that passes the guard either
    completes, merging one of the candidate texts into the content,
    counting it, and returning to [idle] after the 150 ms success pause;
    or fails with the simulated network or service error (failure draw
    below 0.08), entering [error] with the content untouched and the
    thrown message stored. *)
Theorem lib_generation_round (ctx : LibMachine.EditorContext) (r1 r2 : Q)
  (Hg : LibMachine.continue_writing_guard ctx = true)
  (H0 : (0 <= r2)%Q) (H1 : (r2 < 1)%Q) :
  match streamText (LibMachine.content ctx) r1 r2 with
  | Fulfilled o =>
      In o LibGenerator.continuationTexts /\
      let '(st', ctx') := LibMachine.run machineCreatedAt LibMachine.Idle ctx
                            [LibMachine.CONTINUE_WRITING; streamText_event (Fulfilled o);
                             LibMachine.After150] in
      st' = LibMachine.Idle /\
      LibMachine.content ctx' = LibMachine.merge_generated (LibMachine.content ctx) o /\
      LibMachine.generationCount ctx' = LibMachine.generationCount ctx + 1 /\
      LibMachine.error ctx' = None
  | Rejected e =>
      (r1 < 8 # 100)%Q /\
      let '(st', ctx') := LibMachine.run machineCreatedAt LibMachine.Idle ctx
                            [LibMachine.CONTINUE_WRITING; streamText_event (Rejected e)] in
      st' = LibMachine.ErrorState /\
      LibMachine.content ctx' = LibMachine.content ctx /\
      LibMachine.generationCount ctx' = LibMachine.generationCount ctx /\
      LibMachine.error ctx' = Some (err_message e)
  end.
Proof.
  destruct (guard_generator_input ctx Hg) as (Hv & Hs & Hb).
  destruct lib_error_messages_nonempty as [Hn Hse].
  unfold streamText, LibGenerator.mockAIStreamingService. cbv zeta.
  rewrite Hv, Hs, Hb. simpl negb. cbv iota.
  destruct (Qltb r1 (5 # 100)) eqn:H5.
  { split.
    - unfold Qltb in H5. apply negb_true_iff in H5.
      apply Qnot_le_lt. intros Hle.
      assert (H5' : (5 # 100 <= r1)%Q) by (eapply Qle_trans; [|exact Hle]; discriminate).
      apply Qle_bool_iff in H5'. congruence.
    - simpl. rewrite Hg. simpl. repeat split.
      now rewrite error_message_stored by (apply picked_message_nonempty; exact Hn). }
  destruct (Qltb r1 (8 # 100)) eqn:H8.
  { split.
    - unfold Qltb in H8. apply negb_true_iff in H8.
      apply Qnot_le_lt. intros Hle. apply Qle_bool_iff in Hle. congruence.
    - simpl. rewrite Hg. simpl. repeat split.
      now rewrite error_message_stored by (apply picked_message_nonempty; exact Hse). }
  assert (Hsel : exists t, (if js_length (LibMachine.content ctx) <? 50 then
      match js_index LibGenerator.openingTexts
              (random_index r2 (List.length LibGenerator.openingTexts)) with
      | Some t => Some t
      | None => js_index LibGenerator.continuationTexts 0
      end
    else js_index LibGenerator.continuationTexts
           (random_index r2 (List.length LibGenerator.continuationTexts))) = Some t /\
      In t LibGenerator.continuationTexts).
  { destruct (js_length (LibMachine.content ctx) <? 50).
    - destruct (js_index LibGenerator.openingTexts
                  (random_index r2 (List.length LibGenerator.openingTexts))) eqn:Ho.
      + apply js_index_In in Ho. eauto using openingTexts_incl.
      + exists (js " The morning sun cast long shadows across the empty street, creating patterns that danced with each passing cloud. Sarah pulled her coat tighter as she walked, her footsteps echoing in the quiet neighborhood.").
        split; [reflexivity|left; reflexivity].
    - destruct (js_index_random_some LibGenerator.continuationTexts r2 H0 H1)
        as [x Hx]; [discriminate|].
      rewrite Hx. apply js_index_In in Hx. eauto. }
  destruct Hsel as (t & Ht & Hin). rewrite Ht.
  rewrite concat_nonempty_tokens. unfold split_ws_capture.
  rewrite split_capture_concat. simpl.
  split; [exact Hin|]. rewrite Hg. simpl. repeat split.
Qed.

End LibMachineRuns.

(** ** The editor machine of src/machines/editorMachine.ts and EditorCard *)

(** X19: from its initial state and context, the machine of
    src/machines/editorMachine.ts only ever rests in [idle] or [loading]
    ([streaming] and [error] have no incoming transition) and its
    [error] stays [null]. *)
Theorem app_machine_reachable (evs : list AppMachine.EditorEvent) :
  let '(st, ctx) := AppMachine.run AppMachine.Idle AppMachine.initialContext evs in
  (st = AppMachine.Idle \/ st = AppMachine.Loading) /\ AppMachine.error ctx = None.
Proof.
  assert (Hg : forall st ctx,
             (st = AppMachine.Idle \/ st = AppMachine.Loading) ->
             AppMachine.error ctx = None ->
             let '(st', ctx') := AppMachine.run st ctx evs in
             (st' = AppMachine.Idle \/ st' = AppMachine.Loading) /\
             AppMachine.error ctx' = None).
  { induction evs as [|ev evs IH]; intros st ctx Hs He; simpl; [auto|].
    destruct (AppMachine.step st ctx ev) as [st' ctx'] eqn:E.
    apply IH; destruct Hs as [-> | ->], ev; simpl in E; injection E as <- <-; simpl; auto. }
  apply Hg; auto.
Qed.

Lemma split_drop_shape (seg run s : jsstring) :
  forallb (fun c => negb (is_ws c)) seg = true ->
  Forall (fun t => forallb (fun c => negb (is_ws c)) t = true) (split_ws false seg run s).
Proof.
  revert seg run. induction s as [|c s IH]; intros seg run Hseg; simpl.
  - destruct run; simpl; repeat constructor; rewrite ?forallb_rev; exact Hseg.
  - destruct (is_ws c) eqn:Hc; [apply IH, Hseg|].
    destruct run.
    + apply IH. simpl. now rewrite Hc, Hseg.
    + simpl. constructor; [now rewrite forallb_rev|]. apply IH. simpl. now rewrite Hc.
Qed.

Lemma app_tokens_shape (t : jsstring) :
  Forall (fun tok => tok <> [] /\ forallb (fun c => negb (is_ws c)) tok = true)
    (nonempty_tokens (split_ws_drop t)).
Proof.
  apply Forall_forall. intros x Hx. unfold nonempty_tokens in Hx.
  apply filter_In in Hx as [Hx Hl]. split.
  - intros ->. discriminate Hl.
  - exact (proj1 (Forall_forall _ _) (split_drop_shape [] [] t eq_refl) x Hx).
Qed.

Lemma endsWith_space_after_token (x tok : jsstring) :
  tok <> [] -> forallb (fun c => negb (is_ws c)) tok = true ->
  endsWith (x ++ tok) (js " ") = false.
Proof.
  intros Hne Hws. change (js " ") with [32]. rewrite endsWith_single, rev_app_distr.
  rewrite <- forallb_rev in Hws.
  destruct (rev tok) as [|z l] eqn:E.
  - apply (f_equal (@rev Z)) in E. rewrite rev_involutive in E. simpl in E. congruence.
  - simpl in Hws. apply andb_true_iff in Hws as [Hz _].
    apply Z.eqb_neq. intros <-. discriminate Hz.
Qed.

Lemma card_updates_last (cur d : jsstring) (toks : list jsstring) :
  toks <> [] ->
  Forall (fun tok => tok <> [] /\ forallb (fun c => negb (is_ws c)) tok = true) toks ->
  last (card_updates cur toks) d =
  cur ++ (if endsWith cur (js " ") then [] else js " ") ++ js_join (js " ") toks.
Proof.
  revert cur. induction toks as [|tok rest IH]; intros cur Hne Hf; [congruence|].
  inversion Hf as [|? ? [Htn Htw] Hr]; subst.
  destruct rest as [|tok2 rest].
  - reflexivity.
  - change (last (card_updates cur (tok :: tok2 :: rest)) d) with
      (last (card_updates (cur ++ (if endsWith cur (js " ") then [] else js " ") ++ tok)
               (tok2 :: rest)) d).
    rewrite IH by (discriminate || exact Hr).
    assert (Hend : endsWith (cur ++ (if endsWith cur (js " ") then [] else js " ") ++ tok)
                     (js " ") = false)
      by (rewrite app_assoc; apply endsWith_space_after_token; assumption).
    rewrite Hend.
    change (js_join (js " ") (tok :: tok2 :: rest)) with
      (tok ++ js " " ++ js_join (js " ") (tok2 :: rest)).
    now rewrite <- !app_assoc.
Qed.

Lemma last_cons_default {T} (a : T) (l : list T) (d d' : T) :
  last (a :: l) d = last (a :: l) d'.
Proof.
  revert a. induction l as [|b l IH]; intros a; [reflexivity|].
  change (last (b :: l) d = last (b :: l) d'). apply IH.
Qed.

Lemma app_run_updates (ctx : AppMachine.EditorContext) (l : list jsstring) :
  AppMachine.run AppMachine.Loading ctx (map AppMachine.UPDATE_CONTENT l ++ [AppMachine.CANCEL]) =
  (AppMachine.Idle, {| AppMachine.content := last l (AppMachine.content ctx);
                       AppMachine.error := AppMachine.error ctx |}).
Proof.
  revert ctx. induction l as [|x l IH]; intros ctx; simpl.
  - destruct ctx; reflexivity.
  - rewrite IH. simpl. destruct l as [|y l]; [reflexivity|].
    now rewrite (last_cons_default y l x (AppMachine.content ctx)).
Qed.

(** X20: the streaming EditorCard's [handleContinueWriting], started
    with the machine in [idle] and with no other event sent while it
    runs, leaves it back in [idle] with the error
    untouched, and with the content extended by the generated tokens
    joined by single spaces (after one space unless the content already
    ends with one); if the generator throws, or yields no token, the
    content is unchanged. *)
Theorem card_continue_writing (c : jsstring) (e : option jsstring) (r : Q) :
  AppMachine.run AppMachine.Idle {| AppMachine.content := c; AppMachine.error := e |}
    (handleContinueWriting_events c r) =
  (AppMachine.Idle,
   {| AppMachine.content :=
        match AppGenerator.mockAIStreamingService c r with
        | GenYields _ ((_ :: _) as toks) =>
            c ++ (if endsWith c (js " ") then [] else js " ") ++ js_join (js " ") toks
        | _ => c
        end;
      AppMachine.error := e |}).
Proof.
  unfold handleContinueWriting_events. cbn [AppMachine.run AppMachine.step].
  destruct (AppGenerator.mockAIStreamingService c r) as [err|t toks] eqn:Hg.
  - reflexivity.
  - rewrite app_run_updates. simpl AppMachine.content. simpl AppMachine.error.
    apply app_generator_tokens in Hg. subst toks.
    destruct (nonempty_tokens (split_ws_drop t)) as [|tok rest] eqn:E; [reflexivity|].
    rewrite card_updates_last; [reflexivity|discriminate|].
    rewrite <- E. apply app_tokens_shape.
Qed.

Lemma lib_generation_count_run_witness :
  Forall (fun ev => ev <> LibMachine.RESET)
    [LibMachine.CONTINUE_WRITING; LibMachine.DoneStreamText (js "Hi"); LibMachine.After150] /\
  LibMachine.generationCount LibMachine.initialContext <=
  LibMachine.generationCount
    (snd (LibMachine.run 0 LibMachine.Idle LibMachine.initialContext
            [LibMachine.CONTINUE_WRITING; LibMachine.DoneStreamText (js "Hi");
             LibMachine.After150])) <=
  LibMachine.generationCount LibMachine.initialContext +
  count_done [LibMachine.CONTINUE_WRITING; LibMachine.DoneStreamText (js "Hi");
              LibMachine.After150].
Proof.
  assert (H : Forall (fun ev => ev <> LibMachine.RESET)
    [LibMachine.CONTINUE_WRITING; LibMachine.DoneStreamText (js "Hi"); LibMachine.After150])
    by (repeat constructor; discriminate).
  split; [exact H|].
  apply (lib_generation_count_run 0 LibMachine.Idle LibMachine.initialContext _ H).
Defined.

Lemma lib_generation_round_witness :
  let ctx := {| LibMachine.content := js "It was late."; LibMachine.generatedText := [];
                LibMachine.streamingText := []; LibMachine.error := None;
                LibMachine.lastGenerationTime := None; LibMachine.generationCount := 0;
                LibMachine.retryCount := 0; LibMachine.isRetrying := false |} in
  LibMachine.continue_writing_guard ctx = true /\
  match streamText (LibMachine.content ctx) (1 # 2) 0 with
  | Fulfilled o =>
      In o LibGenerator.continuationTexts /\
      let '(st', ctx') := LibMachine.run 0 LibMachine.Idle ctx
                            [LibMachine.CONTINUE_WRITING; streamText_event (Fulfilled o);
                             LibMachine.After150] in
      st' = LibMachine.Idle /\
      LibMachine.content ctx' = LibMachine.merge_generated (LibMachine.content ctx) o /\
      LibMachine.generationCount ctx' = LibMachine.generationCount ctx + 1 /\
      LibMachine.error ctx' = None
  | Rejected e =>
      (1 # 2 < 8 # 100)%Q /\
      let '(st', ctx') := LibMachine.run 0 LibMachine.Idle ctx
                            [LibMachine.CONTINUE_WRITING; streamText_event (Rejected e)] in
      st' = LibMachine.ErrorState /\
      LibMachine.content ctx' = LibMachine.content ctx /\
      LibMachine.generationCount ctx' = LibMachine.generationCount ctx /\
      LibMachine.error ctx' = Some (err_message e)
  end.
Proof.
  intros ctx.
  assert (Hg : LibMachine.continue_writing_guard ctx = true) by (vm_compute; reflexivity).
  split; [exact Hg|].
  apply (lib_generation_round 0 ctx (1 # 2) 0 Hg); [discriminate|reflexivity].
Defined.
